(** * Backbone.Pipe: the view controller of backbone.plumber.js

    A shallow embedding of [ViewController] (src/backbone.plumber.js) and
    the properties of its registry: the three indexes, the removal
    protocol, the attach decision and the bulk [apply].

    JavaScript objects used as dictionaries ([_views], [_indexByModel],
    [_indexByCustom]) are finite maps keyed by strings.  Calls into the
    collaborators (the view's render hook, its root element, its named
    members) are recorded, in order, in a trace of events; an exception
    leaves the state and the trace as they were when it was raised.

    What the embedding takes for granted about the collaborators, which
    live outside this file: a view is a [Backbone.View], so that
    [view.remove()] is the method overridden here; a call into a view
    (render hook, template, root element, named member) returns and does
    not call back into the controller; and a [cid], which the framework
    generates ([view12], [c7]), is not the name of a property that every
    object inherits.  Custom keys are the caller's: the one key under
    which an assignment to a plain object stores nothing, [__proto__], is
    modelled as such. *)

From Stdlib Require Import ZArith.
From stdpp Require Import gmap strings list fin_maps.

Module ViewController.

(** ** Values and collaborators *)

(** Plain JavaScript data: what a model serialises to, what [apply]
    forwards to the views. *)
#[local] Set Warnings "-register-all".
Inductive JsVal :=
| JUndefined
| JNull
| JBool (b : bool)
| JNum (n : Z)
| JStr (s : string)
| JArr (elems : list JsVal)
| JObj (props : list (string * JsVal)).

(** A model: its [cid], its [attributes] ([None] when the property is
    [undefined], as for a plain object bound in place of a Backbone model)
    and what [toJSON()] returns. *)
Record Model := {
  model_cid : string;
  attributes : option JsVal;
  toJSON : JsVal
}.

(** What [attach] hands to the template: the snapshot [model.toJSON()],
    or the model object itself. *)
Inductive TemplateArg :=
| Snapshot (data : JsVal)
| ModelObject (m : Model).

(** A property of a view reached by name: a function, or anything else. *)
Inductive Member :=
| MFunction
| MValue (v : JsVal).

(** A view, as far as the controller reads it: [cid], the bound [model]
    and [collection] ([None] for a falsy property), the [template]
    ([None] when [undefined]; the function maps its argument to markup)
    and the properties reachable by name. *)
Record View := {
  cid : string;
  model : option Model;
  collection : option (list Model);
  template : option (TemplateArg → string);
  members : gmap string Member
}.

(** A JavaScript value in the position of a view argument. *)
Inductive Ref :=
| RNull
| RUndefined
| RView (v : View).

(** Calls into the collaborators, in the order they are made. *)
Inductive Event :=
| EvHtml (view_cid : string) (content : string)    (* view.$el.html($(content)) *)
| EvRender (view_cid : string)                     (* view.render() *)
| EvDomRemove (element : string)                   (* $(element).remove() *)
| EvEmpty (view_cid : string)                      (* view.$el.empty() *)
| EvUndelegate (view_cid : string)                 (* view.undelegateEvents() *)
| EvApply (view_cid : string) (method : string) (args : list JsVal).
                                                   (* view[method].apply(view, args) *)

Inductive Error :=
| TypeError (msg : string)
| Thrown (msg : string).

(** ** The controller's state *)

(** [length] is [None] while the property is [undefined]: the constructor
    does not assign it. *)
Record Registry := {
  _views : gmap string View;
  _indexByModel : gmap string string;
  _indexByCustom : gmap string string;
  length : option nat
}.

(** [function ViewController(options)]: three empty objects.  [_configure]
    copies [model], [collection] and [views] from the options onto the
    instance and the default [initialize] does nothing; neither touches
    the fields below. *)
Definition new_ViewController : Registry :=
  {| _views := ∅; _indexByModel := ∅; _indexByCustom := ∅; length := None |}.

Definition set_views (f : gmap string View → gmap string View) (s : Registry) : Registry :=
  {| _views := f (_views s); _indexByModel := _indexByModel s;
     _indexByCustom := _indexByCustom s; length := length s |}.

Definition set_indexByModel (f : gmap string string → gmap string string) (s : Registry) : Registry :=
  {| _views := _views s; _indexByModel := f (_indexByModel s);
     _indexByCustom := _indexByCustom s; length := length s |}.

Definition set_indexByCustom (f : gmap string string → gmap string string) (s : Registry) : Registry :=
  {| _views := _views s; _indexByModel := _indexByModel s;
     _indexByCustom := f (_indexByCustom s); length := length s |}.

Definition set_length (n : option nat) (s : Registry) : Registry :=
  {| _views := _views s; _indexByModel := _indexByModel s;
     _indexByCustom := _indexByCustom s; length := n |}.

(** ** State, exceptions and the event trace *)

Inductive Outcome (A : Type) :=
| Return (a : A) (s : Registry) (t : list Event)
| Raise (e : Error) (s : Registry) (t : list Event).
Arguments Return {A} a s t.
Arguments Raise {A} e s t.

Definition M (A : Type) : Type := Registry → Outcome A.

#[global] Instance M_ret : MRet M := λ A a s, Return a s [].

Definition bind {A B} (m : M A) (f : A → M B) : M B := λ s,
  match m s with
  | Return a s1 t1 =>
      match f a s1 with
      | Return b s2 t2 => Return b s2 (t1 ++ t2)
      | Raise e s2 t2 => Raise e s2 (t1 ++ t2)
      end
  | Raise e s1 t1 => Raise e s1 t1
  end.

#[global] Instance M_bind : MBind M := λ A B f m, bind m f.

Notation "x <- m ; k" := (bind m (λ x, k))
  (at level 20, m at level 100, k at level 200, right associativity, only parsing).

Definition throw {A} (e : Error) : M A := λ s, Raise e s [].
Definition emit (ev : Event) : M unit := λ s, Return tt s [ev].
Definition get : M Registry := λ s, Return s s [].
Definition modify (f : Registry → Registry) : M unit := λ s, Return tt (f s) [].

(** State and trace an outcome ends with, returned or raised. *)
Definition final_state {A} (o : Outcome A) : Registry :=
  match o with Return _ s _ | Raise _ s _ => s end.

Definition events {A} (o : Outcome A) : list Event :=
  match o with Return _ _ t | Raise _ _ t => t end.

(** ** JavaScript primitives the controller relies on *)

(** Reading a property of [view]: a TypeError on [null] and [undefined]. *)
Definition deref (view : Ref) : M View :=
  match view with
  | RView v => mret v
  | RNull => throw (TypeError "Cannot read property of null")
  | RUndefined => throw (TypeError "Cannot read property of undefined")
  end.

(** [view !== null]. *)
Definition strict_neq_null (view : Ref) : bool :=
  match view with RNull => false | _ => true end.

(** Truthiness of an optional string argument such as [customIndex]:
    [undefined] and the empty string are falsy. *)
Definition truthy (customIndex : option string) : bool :=
  match customIndex with
  | Some k => negb (String.eqb k "")
  | None => false
  end.

(** The key [obj[x]] reads when [x] may be [undefined]. *)
Definition property_key (x : option string) : string :=
  match x with Some k => k | None => "undefined" end.

(** [obj[key] = value] on a plain object, for a string [value]: an own
    entry is written, except under [__proto__], which names the accessor
    every object inherits; its setter ignores a value that is not an
    object, and nothing is stored. *)
Definition assign (key value : string) (obj : gmap string string) : gmap string string :=
  if String.eqb key "__proto__" then obj else <[key := value]> obj.

(** Members of [ViewController.prototype]: the keys of the object literal
    passed to [_.extend], and the methods of [Backbone.Events]. *)
Definition prototype_keys : list string :=
  [ "initialize"; "storeView"; "removeFromContainer"; "removeView"; "attach";
    "createView"; "apply"; "attachSingleView"; "attachViews"; "_getByModel";
    "_getByModelCid"; "_getByCustom"; "_getByIndex"; "_getByCid";
    "_updateLength"; "_configure";
    "on"; "off"; "trigger"; "once"; "listenTo"; "listenToOnce";
    "stopListening"; "bind"; "unbind" ].

(** [this.name(...)]: the call reaches [body] when the prototype binds
    [name]; otherwise [this.name] is [undefined] and calling it raises a
    TypeError. *)
Definition this_call {A} (name : string) (body : M A) : M A :=
  if existsb (String.eqb name) prototype_keys then body
  else throw (TypeError ("this." +:+ name +:+ " is not a function")).

(** The value an outcome returns, if it returns. *)
Definition returned {A} (o : Outcome A) : option A :=
  match o with Return a _ _ => Some a | Raise _ _ _ => None end.

(** ** Sample collaborators

    One model, two views bound to it (the first with a template), a view
    bound to a collection, and a view bound to nothing. *)

Definition model1 : Model :=
  {| model_cid := "c1"; attributes := Some (JObj [("title", JStr "x")]);
     toJSON := JObj [("title", JStr "x")] |}.

Definition view1 : View :=
  {| cid := "view1"; model := Some model1; collection := None;
     template := Some (λ _, "<p>x</p>");
     members := {[ "customMethod" := MFunction ]} |}.

Definition view2 : View :=
  {| cid := "view2"; model := Some model1; collection := None;
     template := None; members := {[ "customMethod" := MValue (JNum 3) ]} |}.

Definition list_view : View :=
  {| cid := "view3"; model := None; collection := Some [model1];
     template := Some (λ _, "<ul></ul>"); members := ∅ |}.

Definition bare_view : View :=
  {| cid := "view4"; model := None; collection := None;
     template := Some (λ _, "<div></div>"); members := ∅ |}.

(** One enumeration order: the one [map_to_list] produces. *)
Definition map_order : ∀ V : Type, gmap string V → list (string * V) :=
  λ V, map_to_list.

(** ** Underscore's iteration over an object

    [for (key in obj)] visits the own keys of [obj] in an order the engine
    chooses; [enum] is that order, any arrangement of the entries. *)

Section Controller.

Variable enum : ∀ V : Type, gmap string V → list (string * V).

(** [_.any(obj, iterator)]: calls [iterator(value, key)] entry by entry and
    stops at the first truthy answer. *)
Fixpoint any_entries {V} (entries : list (string * V)) (iterator : V → string → M bool) : M bool :=
  match entries with
  | [] => mret false
  | (key, value) :: rest =>
      found <- iterator value key;
      if found then mret true else any_entries rest iterator
  end.

Definition _any {V} (obj : gmap string V) (iterator : V → string → M bool) : M bool :=
  any_entries (enum V obj) iterator.

(** [_.each(obj, iterator)]: calls [iterator(value)] on every entry. *)
Fixpoint each_entries {V} (entries : list (string * V)) (iterator : V → M unit) : M unit :=
  match entries with
  | [] => mret tt
  | (_, value) :: rest => iterator value;; each_entries rest iterator
  end.

Definition _each {V} (obj : gmap string V) (iterator : V → M unit) : M unit :=
  each_entries (enum V obj) iterator.

(** [_.isFunction(view[method])]. *)
Definition isFunction (m : option Member) : bool :=
  match m with Some MFunction => true | _ => false end.

(** ** The overridden [Backbone.View.prototype.remove] *)

Definition View_remove (this : View) (element : option string) : M unit :=
  (if truthy element
   then emit (EvDomRemove (property_key element))
   else emit (EvEmpty (cid this)));;
  emit (EvUndelegate (cid this)).

(** ** The methods of [ViewController.prototype] *)

Definition _updateLength : M unit :=
  modify (λ s, set_length (Some (size (_views s))) s).

Definition storeView (view : Ref) (customIndex : option string) : M unit :=
  v <- deref view;
  let viewCid := cid v in
  modify (set_views <[viewCid := v]>);;
  match model v with
  | Some m => modify (set_indexByModel <[model_cid m := viewCid]>)
  | None => mret tt
  end;;
  (if truthy customIndex
   then modify (set_indexByCustom (assign (property_key customIndex) viewCid))
   else mret tt);;
  this_call "_updateLength" _updateLength.

(** The iterator [removeFromContainer] hands to [_.any]: it deletes the
    key whose entry is [viewCid] and answers [true]; otherwise it answers
    nothing, which is falsy. *)
Definition delete_if_targets (viewCid : string) (c key : string) : M bool :=
  if decide (c = viewCid)
  then modify (set_indexByCustom (delete key));; mret true
  else mret false.

Definition removeFromContainer (view : Ref) : M unit :=
  v <- deref view;
  let viewCid := cid v in
  match model v with
  | Some m => modify (set_indexByModel (delete (model_cid m)))
  | None => mret tt
  end;;
  s <- get;
  _any (_indexByCustom s) (delete_if_targets viewCid);;
  modify (set_views (delete viewCid));;
  this_call "_updateLength" _updateLength.

(** [view.remove()] is the method of [Backbone.View.prototype] overridden
    above, called without an element. *)
Definition removeView (view : Ref) : M unit :=
  if strict_neq_null view then
    this_call "removeFromContainer" (removeFromContainer view);;
    v <- deref view;
    View_remove v None
  else mret tt.

(** The local [model] of [attach]: [view.model.toJSON()] when the bound
    model has [attributes], else the bound object itself; reading
    [attributes] of a missing model raises. *)
Definition template_data (m : Model) : TemplateArg :=
  match attributes m with
  | Some _ => Snapshot (toJSON m)
  | None => ModelObject m
  end.

Definition attach (view : Ref) : M unit :=
  v <- deref view;
  match collection v with
  | None =>
      data <- match model v with
             | None => throw (TypeError "Cannot read property 'attributes' of undefined")
             | Some m => mret (template_data m)
             end;
      match template v with
      | Some tpl => emit (EvHtml (cid v) (tpl data))
      | None => mret tt
      end;;
      emit (EvRender (cid v))
  | Some _ => mret tt
  end.

(** [new ViewType(options)]: the constructor yields a view or throws. *)
Definition Options : Type := list (string * JsVal).
Definition Constructor : Type := Options → Error + View.

Definition new (ViewType : Constructor) (options : Options) : M Ref :=
  match ViewType options with
  | inr v => mret (RView v)
  | inl e => throw e
  end.

Definition createView (ViewType : Constructor) (options : Options)
    (customIndex : option string) : M Ref :=
  view <- new ViewType options;
  (if truthy customIndex
   then this_call "storeView" (storeView view customIndex)
   else this_call "storeView" (storeView view None));;
  mret view.

(** The iterator [apply] hands to [_.each]; [args || []] is the argument
    list the member is called with. *)
Definition apply_to (method : string) (args : option (list JsVal)) (view : View) : M unit :=
  if isFunction (members view !! method)
  then emit (EvApply (cid view) method (default [] args))
  else mret tt.

Definition apply (method : string) (args : option (list JsVal)) : M unit :=
  s <- get;
  _each (_views s) (apply_to method args).

(** [this._views[index]]: [undefined] when the key is absent. *)
Definition views_at (index : string) (s : Registry) : Ref :=
  match _views s !! index with Some v => RView v | None => RUndefined end.

Definition attachSingleView (index : string) : M unit :=
  s <- get;
  let view := views_at index s in
  this_call "attach" (attach view).

Definition attachViews : M unit :=
  s <- get;
  _each (_views s) (λ view, this_call "attach" (attach (RView view))).

Definition _getByCid (cid : option string) : M Ref :=
  s <- get;
  mret (views_at (property_key cid) s).

(** The two lookups through an index end in [this.getByCid(viewCid)].
    The prototype binds the lookup by handle as [_getByCid]; [getByCid] is
    not among its members, so the body passed to [this_call] is never
    reached. *)
Definition _getByModelCid (modelCid : string) : M Ref :=
  s <- get;
  let viewCid := _indexByModel s !! modelCid in
  this_call "getByCid" (_getByCid viewCid).

Definition _getByModel (m : Model) : M Ref :=
  this_call "getByModelCid" (_getByModelCid (model_cid m)).

Definition _getByCustom (index : string) : M Ref :=
  s <- get;
  let viewCid := _indexByCustom s !! index in
  this_call "getByCid" (_getByCid viewCid).

Definition _getByIndex (index : nat) : M Ref :=
  s <- get;
  mret (match (enum View (_views s)).*2 !! index with
        | Some v => RView v
        | None => RUndefined
        end).

(** ** Sequences of operations *)

Inductive Op :=
| OpStoreView (view : Ref) (customIndex : option string)
| OpCreateView (ViewType : Constructor) (options : Options) (customIndex : option string)
| OpRemoveFromContainer (view : Ref)
| OpRemoveView (view : Ref).

Definition run_op (op : Op) : M unit :=
  match op with
  | OpStoreView view customIndex => storeView view customIndex
  | OpCreateView ViewType options customIndex =>
      createView ViewType options customIndex;; mret tt
  | OpRemoveFromContainer view => removeFromContainer view
  | OpRemoveView view => removeView view
  end.

(** A caller running operations one after the other; an exception ends
    the sequence. *)
Fixpoint run_ops (ops : list Op) : M unit :=
  match ops with
  | [] => mret tt
  | op :: rest => run_op op;; run_ops rest
  end.

(** The states a controller goes through: the one the constructor builds,
    and the one any operation leaves behind, returning or throwing. *)
Inductive reachable : Registry → Prop :=
| reachable_new : reachable new_ViewController
| reachable_step (s : Registry) (op : Op) :
    reachable s → reachable (final_state (run_op op s)).

(** Every handle an index holds is a key of [_views]. *)
Definition index_closed (s : Registry) : Prop :=
  (∀ modelCid c, _indexByModel s !! modelCid = Some c → is_Some (_views s !! c))
  ∧ (∀ key c, _indexByCustom s !! key = Some c → is_Some (_views s !! c)).

(** The view an operation registers, with the custom key it passes on. *)
Definition stored (op : Op) : option (View * option string) :=
  match op with
  | OpStoreView (RView v) customIndex => Some (v, customIndex)
  | OpCreateView ViewType options customIndex =>
      match ViewType options with
      | inr v => Some (v, if truthy customIndex then customIndex else None)
      | inl _ => None
      end
  | _ => None
  end.

(** The view an operation unregisters. *)
Definition removed (op : Op) : option View :=
  match op with
  | OpRemoveFromContainer (RView v) | OpRemoveView (RView v) => Some v
  | _ => None
  end.

(** A handle names one view: if [v]'s handle is registered, it is [v]
    that is registered under it. *)
Definition same_handle_same_view (s : Registry) (v : View) : Prop :=
  ∀ v', _views s !! cid v = Some v' → v' = v.

(** [v] is not given a second custom key: storing it under [customIndex]
    finds no other key that targets its handle. *)
Definition no_second_custom_key (s : Registry) (v : View) (customIndex : option string) : Prop :=
  truthy customIndex = true →
  ∀ key, _indexByCustom s !! key = Some (cid v) → key = property_key customIndex.

Definition disciplined (s : Registry) (op : Op) : Prop :=
  match stored op, removed op with
  | Some (v, customIndex), _ =>
      same_handle_same_view s v ∧ no_second_custom_key s v customIndex
  | None, Some v => same_handle_same_view s v
  | None, None => True
  end.

Inductive reachable_disciplined : Registry → Prop :=
| disciplined_new : reachable_disciplined new_ViewController
| disciplined_step (s : Registry) (op : Op) :
    reachable_disciplined s → disciplined s op →
    reachable_disciplined (final_state (run_op op s)).

(** States in whose history no view with handle [c] was ever stored. *)
Inductive never_registered (c : string) : Registry → Prop :=
| never_new : never_registered c new_ViewController
| never_step (s : Registry) (op : Op) :
    never_registered c s →
    (∀ v customIndex, stored op = Some (v, customIndex) → cid v ≠ c) →
    never_registered c (final_state (run_op op s)).

(** A sequence of [storeView] calls. *)
Fixpoint storeViews (calls : list (View * option string)) : M unit :=
  match calls with
  | [] => mret tt
  | (v, customIndex) :: rest => storeView (RView v) customIndex;; storeViews rest
  end.

(** What the indexes satisfy as long as the operations are disciplined:
    a model entry targets a registered view bound to that model, a custom
    entry targets a registered view, and no two custom keys target one
    handle. *)
Definition registry_inv (s : Registry) : Prop :=
  (∀ modelCid c, _indexByModel s !! modelCid = Some c →
     ∃ v, _views s !! c = Some v ∧ model_cid <$> model v = Some modelCid)
  ∧ (∀ key c, _indexByCustom s !! key = Some c → is_Some (_views s !! c))
  ∧ (∀ key key' c, _indexByCustom s !! key = Some c →
       _indexByCustom s !! key' = Some c → key = key').

(** With the enumeration being one of the object's own entries: the custom
    index is untouched when no key targets the handle, else one such key
    is gone. *)
Definition custom_index_after (c : string) (before after : gmap string string) : Prop :=
  ((∀ key, before !! key ≠ Some c) ∧ after = before)
  ∨ (∃ key, before !! key = Some c ∧ after = delete key before).

(** ** Running the methods *)

Ltac run :=
  unfold mbind, M_bind, mret, M_ret, bind, deref, modify, emit, get, throw;
  simpl.

Lemma this_call_bound {A} (name : string) (body : M A) :
  existsb (String.eqb name) prototype_keys = true → this_call name body = body.
Proof. intros H. unfold this_call. by rewrite H. Qed.

Lemma this_call_unbound {A} (name : string) (body : M A) :
  existsb (String.eqb name) prototype_keys = false →
  this_call name body = throw (TypeError ("this." +:+ name +:+ " is not a function")).
Proof. intros H. unfold this_call. by rewrite H. Qed.

Lemma assign_proto (value : string) (obj : gmap string string) :
  assign "__proto__" value obj = obj.
Proof. reflexivity. Qed.

Lemma assign_other (key value : string) (obj : gmap string string) :
  key ≠ "__proto__" → assign key value obj = <[key := value]> obj.
Proof. intros Hkey%String.eqb_neq. unfold assign. by rewrite Hkey. Qed.

Lemma assign_cases (key value : string) (obj : gmap string string) :
  assign key value obj = obj ∨ assign key value obj = <[key := value]> obj.
Proof. unfold assign. destruct (String.eqb key "__proto__"); auto. Qed.

Lemma storeView_spec (v : View) (k : option string) (s : Registry) :
  ∃ s', storeView (RView v) k s = Return tt s' []
    ∧ _views s' = <[cid v := v]> (_views s)
    ∧ _indexByModel s' =
        match model v with
        | Some m => <[model_cid m := cid v]> (_indexByModel s)
        | None => _indexByModel s
        end
    ∧ _indexByCustom s' =
        (if truthy k then assign (property_key k) (cid v) (_indexByCustom s)
         else _indexByCustom s)
    ∧ length s' = Some (size (_views s')).
Proof.
  unfold storeView. rewrite this_call_bound by reflexivity.
  unfold _updateLength.
  destruct (model v) eqn:Hm, (truthy k) eqn:Hk; run; rewrite ?Hm;
    eexists; (split; [reflexivity|]); simpl; auto.
Qed.

(** [_.any] with the deleting iterator: nothing targets [viewCid] and the
    state is untouched, or the first entry that does is deleted. *)
Lemma any_entries_delete (viewCid : string) (entries : list (string * string))
    (s : Registry) :
  (Forall (λ kv, kv.2 ≠ viewCid) entries
    ∧ any_entries entries (delete_if_targets viewCid) s = Return false s [])
  ∨ (∃ l1 key l2, entries = l1 ++ (key, viewCid) :: l2
      ∧ Forall (λ kv, kv.2 ≠ viewCid) l1
      ∧ any_entries entries (delete_if_targets viewCid) s
        = Return true (set_indexByCustom (delete key) s) []).
Proof.
  induction entries as [|[key c] rest IH]; simpl.
  - left. split; [constructor | reflexivity].
  - unfold delete_if_targets at 1 3. destruct (decide (c = viewCid)) as [->|Hne].
    + right. exists [], key, rest.
      split; [done|]. split; [constructor|]. by run.
    + destruct IH as [[Hall Hrun]|(l1 & key' & l2 & -> & Hall & Hrun)].
      * left. split; [by constructor|]. run. fold (@any_entries string).
        by rewrite Hrun.
      * right. exists ((key, c) :: l1), key', l2.
        split; [done|]. split; [by constructor|].
        run. fold (@any_entries string). by rewrite Hrun.
Qed.

(** [removeFromContainer] of a view returns; it deletes the view's handle
    from [_views], the entry of its model from the model index, and from
    the custom index the first enumerated key that targets the handle. *)
Lemma removeFromContainer_spec (v : View) (s : Registry) :
  ∃ s', removeFromContainer (RView v) s = Return tt s' []
    ∧ _views s' = delete (cid v) (_views s)
    ∧ _indexByModel s' =
        match model v with
        | Some m => delete (model_cid m) (_indexByModel s)
        | None => _indexByModel s
        end
    ∧ ((Forall (λ kv, kv.2 ≠ cid v) (enum string (_indexByCustom s))
         ∧ _indexByCustom s' = _indexByCustom s)
       ∨ (∃ key, (key, cid v) ∈ enum string (_indexByCustom s)
            ∧ _indexByCustom s' = delete key (_indexByCustom s)))
    ∧ length s' = Some (size (_views s')).
Proof.
  unfold removeFromContainer. rewrite this_call_bound by reflexivity.
  unfold _updateLength, _any.
  destruct (model v) as [m|] eqn:Hm; run; rewrite ?Hm;
    match goal with
    | |- context [any_entries (enum string ?idx) _ ?s0] =>
        destruct (any_entries_delete (cid v) (enum string idx) s0)
          as [[Hall Hrun]|(l1 & key & l2 & Hl & Hall & Hrun)]
    end; rewrite Hrun; simpl in *;
    (eexists; split; [reflexivity|]; simpl; repeat split; auto).
  all: right; exists key; split; [|done]; rewrite Hl; set_solver.
Qed.

Lemma getByCid_spec (c : string) (s : Registry) :
  _getByCid (Some c) s = Return (views_at c s) s [].
Proof. reflexivity. Qed.

Lemma getByCid_not_bound : "getByCid" ∉ prototype_keys.
Proof. compute_done. Qed.

Lemma getByCustom_raises (index : string) (s : Registry) :
  _getByCustom index s = Raise (TypeError "this.getByCid is not a function") s [].
Proof. reflexivity. Qed.

Lemma getByModelCid_raises (modelCid : string) (s : Registry) :
  _getByModelCid modelCid s = Raise (TypeError "this.getByCid is not a function") s [].
Proof. reflexivity. Qed.

Lemma views_at_Some (c : string) (v : View) (s : Registry) :
  _views s !! c = Some v → views_at c s = RView v.
Proof. intros H. unfold views_at. by rewrite H. Qed.

Lemma views_at_None (c : string) (s : Registry) :
  _views s !! c = None → views_at c s = RUndefined.
Proof. intros H. unfold views_at. by rewrite H. Qed.

(** [attach] reads [view.model.attributes] before anything else: without a
    bound model, and without a collection, it raises. *)
Lemma attach_without_model_raises (v : View) (s : Registry) :
  collection v = None → model v = None →
  attach (RView v) s
  = Raise (TypeError "Cannot read property 'attributes' of undefined") s [].
Proof. intros Hc Hm. unfold attach. run. by rewrite Hc, Hm. Qed.

Lemma removeView_null (s : Registry) : removeView RNull s = Return tt s [].
Proof. reflexivity. Qed.

Lemma removeView_present (v : View) (s : Registry) :
  removeView (RView v) s
  = (removeFromContainer (RView v);; View_remove v None) s.
Proof. unfold removeView. simpl. by rewrite this_call_bound by reflexivity. Qed.

(** The state an operation leaves is the one it found, or the one
    [storeView] or [removeFromContainer] leaves for the view it names. *)
Lemma run_op_cases (op : Op) (s : Registry) :
  (stored op = None ∧ removed op = None ∧ final_state (run_op op s) = s)
  ∨ (∃ v k, stored op = Some (v, k)
       ∧ final_state (run_op op s) = final_state (storeView (RView v) k s))
  ∨ (∃ v, stored op = None ∧ removed op = Some v
       ∧ final_state (run_op op s) = final_state (removeFromContainer (RView v) s)).
Proof.
  destruct op as [view k|ViewType options k|view|view]; simpl.
  - destruct view; [by left|by left|]. right. left. by eexists _, _.
  - unfold createView, new.
    destruct (ViewType options) as [e|v] eqn:Hctor; [by left|].
    right. left. exists v, (if truthy k then k else None). split; [done|].
    destruct (truthy k);
      [destruct (storeView_spec v k s) as (s' & Hrun & _)
      |destruct (storeView_spec v None s) as (s' & Hrun & _)];
      run; unfold this_call; simpl; by rewrite Hrun.
  - destruct view; [by left|by left|]. right. right. by eexists.
  - destruct view; [by left|by left|]. right. right. exists v.
    split; [done|]. split; [done|].
    rewrite removeView_present.
    destruct (removeFromContainer_spec v s) as (s' & Hrun & _).
    run. by rewrite Hrun.
Qed.

(** A handle that was never stored is no key of [_views] and no value of
    the custom index. *)
Lemma never_registered_absent (c : string) (s : Registry) :
  never_registered c s →
  _views s !! c = None ∧ ∀ key, _indexByCustom s !! key ≠ Some c.
Proof.
  induction 1 as [|s op _ [IHv IHc] Hop]; [by split|].
  destruct (run_op_cases op s)
    as [(_ & _ & ->)|[(v & k & Hst & ->)|(v & _ & _ & ->)]]; [by split|..].
  - destruct (storeView_spec v k s) as (s' & -> & Hv & _ & Hc & _); simpl.
    specialize (Hop v k Hst). rewrite Hv, Hc. split.
    + by rewrite lookup_insert_ne.
    + intros key. destruct (truthy k); [|done].
      destruct (assign_cases (property_key k) (cid v) (_indexByCustom s))
        as [-> | ->]; [done|].
      rewrite lookup_insert. case_decide; [congruence|done].
  - destruct (removeFromContainer_spec v s) as (s' & -> & Hv & _ & Hc & _); simpl.
    rewrite Hv. split.
    + rewrite lookup_delete. by case_decide.
    + intros key. destruct Hc as [[_ ->]|(key' & _ & ->)]; [done|].
      rewrite lookup_delete. by case_decide.
Qed.

(** [_.each] with the iterator of [apply]: one call per entry whose view
    has the member as a function, in enumeration order. *)
Lemma each_entries_apply (method : string) (args : option (list JsVal))
    (entries : list (string * View)) (s : Registry) :
  each_entries entries (apply_to method args) s
  = Return tt s
      ((λ kv, EvApply (cid kv.2) method (default [] args))
         <$> filter (λ kv, isFunction (members kv.2 !! method)) entries).
Proof.
  induction entries as [|[key view] rest IH]; [reflexivity|].
  change (each_entries ((key, view) :: rest) (apply_to method args) s)
    with ((apply_to method args view;; each_entries rest (apply_to method args)) s).
  rewrite filter_cons. unfold mbind, M_bind, bind, apply_to at 1. simpl.
  destruct (isFunction (members view !! method)); simpl; by rewrite IH.
Qed.

(** Storing views with fresh, pairwise distinct handles adds one entry to
    [_views] per call. *)
Lemma storeViews_size (calls : list (View * option string)) (s : Registry) :
  NoDup (cid <$> calls.*1) →
  (∀ v, v ∈ calls.*1 → _views s !! cid v = None) →
  ∃ s', storeViews calls s = Return tt s' []
    ∧ size (_views s') = size (_views s) + List.length calls
    ∧ (calls ≠ [] → length s' = Some (size (_views s'))).
Proof.
  revert s. induction calls as [|[v k] rest IH]; intros s Hnd Hfresh.
  - exists s. split; [done|]. split; [simpl; lia|done].
  - rewrite !fmap_cons in Hnd. simpl in Hnd. apply NoDup_cons in Hnd as [Hv Hnd].
    destruct (storeView_spec v k s) as (s1 & Hrun1 & Hv1 & _ & _ & Hl1).
    destruct (IH s1 Hnd) as (s' & Hrun & Hsize & Hlen).
    { intros v' Hv'. rewrite Hv1, lookup_insert_ne.
      - apply Hfresh. rewrite fmap_cons. by right.
      - intros Heq. apply Hv. rewrite Heq. apply list_elem_of_fmap. by exists v'. }
    exists s'. split.
    { change (storeViews ((v, k) :: rest) s)
        with ((storeView (RView v) k;; storeViews rest) s).
      unfold mbind, M_bind, bind. by rewrite Hrun1, Hrun. }
    assert (Hs1 : size (_views s1) = S (size (_views s))).
    { rewrite Hv1. apply map_size_insert_None, Hfresh. rewrite fmap_cons. by left. }
    split; [simpl; lia|]. intros _.
    destruct rest as [|call rest]; [|by apply Hlen].
    simpl in Hrun. unfold mret, M_ret in Hrun. by simplify_eq.
Qed.

Lemma reachable_run_ops (ops : list Op) (s : Registry) :
  reachable s → reachable (final_state (run_ops ops s)).
Proof.
  revert s. induction ops as [|op rest IH]; intros s Hs; [done|].
  change (run_ops (op :: rest) s) with ((run_op op;; run_ops rest) s).
  pose proof (reachable_step s op Hs) as Hstep.
  unfold mbind, M_bind, bind. destruct (run_op op s) as [[] s1 t1|e s1 t1]; [|done].
  specialize (IH s1 Hstep). by destruct (run_ops rest s1).
Qed.

(** ** Properties that hold in whatever order the keys are enumerated *)

(** C1, amended.  [attach] on a view bound to a collection does nothing at
    all: no template substitution, and the render hook is not invoked.
    On a view without a collection that is bound to a model, the contents
    of the root element are first replaced by the output of the template
    (when the view has one) and then the render hook is invoked; the
    registry itself is left as it was. *)
Theorem attach_renders_model_views_only (v : View) (s : Registry) :
  (is_Some (collection v) → attach (RView v) s = Return tt s [])
  ∧ (∀ m, collection v = None → model v = Some m →
       attach (RView v) s
       = Return tt s
           (match template v with
            | Some tpl => [EvHtml (cid v) (tpl (template_data m))]
            | None => []
            end ++ [EvRender (cid v)])).
Proof.
  split.
  - intros [c Hc]. unfold attach. run. by rewrite Hc.
  - intros m Hc Hm. unfold attach. run. rewrite Hc, Hm.
    by destruct (template v).
Qed.

(** C2.  [removeView(null)] returns at once and changes nothing, and
    [removeView] of a view runs [removeFromContainer] and then has the
    view empty its root element and undelegate its events.  At
    [undefined], the value every lookup of this controller yields for a
    missing view, the guard [view !== null] lets the call through and
    reading [view.cid] raises a TypeError. *)
Theorem removeView_guards_null_only (v : View) (s : Registry) :
  removeView RNull s = Return tt s []
  ∧ (∃ s', removeFromContainer (RView v) s = Return tt s' []
        ∧ removeView (RView v) s
          = Return tt s' [EvEmpty (cid v); EvUndelegate (cid v)])
  ∧ removeView RUndefined s
    = Raise (TypeError "Cannot read property of undefined") s [].
Proof.
  split; [reflexivity|]. split; [|reflexivity].
  destruct (removeFromContainer_spec v s) as (s' & Hrun & _).
  exists s'. split; [done|].
  rewrite removeView_present. run. by rewrite Hrun.
Qed.

(** C4, amended.  For a handle that is not registered, [attachSingleView]
    reads [undefined] from [_views] and passes it to [attach], where
    nothing guards it: reading [view.collection] raises a TypeError.  The
    registry is unchanged and no collaborator is called. *)
Theorem attachSingleView_unknown_raises (index : string) (s : Registry) :
  _views s !! index = None →
  attachSingleView index s
  = Raise (TypeError "Cannot read property of undefined") s [].
Proof.
  intros H. unfold attachSingleView. run.
  rewrite (views_at_None _ _ H). reflexivity.
Qed.

(** C6.  After [storeView(v1)] and [storeView(v2)] for two views bound to
    one model, the model index maps the model to [v2]'s handle and both
    views are still found by their own handles.  The lookup through the
    model index, [_getByModelCid], does not return [v2]: it calls
    [this.getByCid], a member the prototype does not have (the lookup by
    handle is named [_getByCid]), and raises a TypeError. *)
Theorem second_store_overwrites_model_index (v1 v2 : View) (m : Model)
    (k1 k2 : option string) (s : Registry) :
  model v1 = Some m → model v2 = Some m → cid v1 ≠ cid v2 →
  ∃ s1 s2,
    storeView (RView v1) k1 s = Return tt s1 []
    ∧ storeView (RView v2) k2 s1 = Return tt s2 []
    ∧ _indexByModel s2 !! model_cid m = Some (cid v2)
    ∧ _getByCid (Some (cid v1)) s2 = Return (RView v1) s2 []
    ∧ _getByCid (Some (cid v2)) s2 = Return (RView v2) s2 []
    ∧ _getByModelCid (model_cid m) s2
      = Raise (TypeError "this.getByCid is not a function") s2 [].
Proof.
  intros Hm1 Hm2 Hne.
  destruct (storeView_spec v1 k1 s) as (s1 & Hrun1 & Hv1 & _).
  destruct (storeView_spec v2 k2 s1) as (s2 & Hrun2 & Hv2 & Hi2 & _).
  exists s1, s2. rewrite Hm2 in Hi2.
  split; [done|]. split; [done|]. split.
  { rewrite Hi2. apply lookup_insert_eq. }
  split.
  { rewrite getByCid_spec. f_equal. apply views_at_Some.
    rewrite Hv2, lookup_insert_ne by done. rewrite Hv1. apply lookup_insert_eq. }
  split.
  { rewrite getByCid_spec. f_equal. apply views_at_Some.
    rewrite Hv2. apply lookup_insert_eq. }
  reflexivity.
Qed.

(** C7, amended.  After [storeView], [createView], [removeFromContainer]
    or [removeView] of a view returns, [length] is the number of entries
    of [_views].  [removeView(null)] returns without touching [length].
    After a non-empty sequence of [storeView] calls on a fresh controller,
    for views with pairwise distinct handles, [length] is the number of
    calls. *)
Theorem length_recomputed_by_mutations :
  (∀ op s s' t, run_op op s = Return tt s' t → op ≠ OpRemoveView RNull →
     length s' = Some (size (_views s')))
  ∧ (∀ s, run_op (OpRemoveView RNull) s = Return tt s [])
  ∧ (∀ calls, calls ≠ [] → NoDup (cid <$> calls.*1) →
       ∃ s', storeViews calls new_ViewController = Return tt s' []
         ∧ length s' = Some (List.length calls)).
Proof.
  split; [|split; [done|]].
  - intros op s s' t Hrun Hop.
    assert (Hs' : s' = final_state (run_op op s)) by by rewrite Hrun.
    destruct (run_op_cases op s)
      as [(Hst & Hrm & _)|[(v & k & _ & Heq)|(v & _ & _ & Heq)]].
    + destruct op as [view k|ViewType options k|view|view]; simpl in *.
      * by destruct view.
      * unfold createView, new in Hrun.
        by destruct (ViewType options).
      * by destruct view.
      * by destruct view.
    + rewrite Hs', Heq.
      by destruct (storeView_spec v k s) as (s1 & -> & _ & _ & _ & Hl).
    + rewrite Hs', Heq.
      by destruct (removeFromContainer_spec v s) as (s1 & -> & _ & _ & _ & Hl).
  - intros calls Hne Hnd.
    destruct (storeViews_size calls new_ViewController Hnd)
      as (s' & Hrun & Hsize & Hlen); [done|].
    exists s'. split; [done|]. rewrite (Hlen Hne), Hsize.
    change (_views new_ViewController) with (∅ : gmap string View).
    by rewrite map_size_empty.
Qed.

(** C10.  [removeFromContainer(v)] deletes the model-index entry of [v]'s
    model whatever handle that entry holds.  So when [v2], bound to the
    same model, was stored after [v1], removing [v1] deletes the entry
    that targets [v2]: the model index has nothing for the model any
    more, while [v2] is still registered in [_views]. *)
Theorem remove_deletes_shared_model_entry (v1 v2 : View) (m : Model)
    (k1 k2 : option string) (s : Registry) :
  model v1 = Some m → model v2 = Some m → cid v1 ≠ cid v2 →
  (∀ s0, ∃ s', removeFromContainer (RView v1) s0 = Return tt s' []
      ∧ _indexByModel s' = delete (model_cid m) (_indexByModel s0))
  ∧ ∃ s1 s2 s3,
      storeView (RView v1) k1 s = Return tt s1 []
      ∧ storeView (RView v2) k2 s1 = Return tt s2 []
      ∧ removeFromContainer (RView v1) s2 = Return tt s3 []
      ∧ _indexByModel s2 !! model_cid m = Some (cid v2)
      ∧ _indexByModel s3 !! model_cid m = None
      ∧ _views s3 !! cid v2 = Some v2.
Proof.
  intros Hm1 Hm2 Hne. split.
  { intros s0. destruct (removeFromContainer_spec v1 s0) as (s' & Hrun & _ & Hi & _).
    exists s'. by rewrite Hm1 in Hi. }
  destruct (storeView_spec v1 k1 s) as (s1 & Hrun1 & _).
  destruct (storeView_spec v2 k2 s1) as (s2 & Hrun2 & Hv2 & Hi2 & _).
  destruct (removeFromContainer_spec v1 s2) as (s3 & Hrun3 & Hv3 & Hi3 & _).
  rewrite Hm2 in Hi2. rewrite Hm1 in Hi3.
  exists s1, s2, s3. repeat (split; [done|]). split.
  { rewrite Hi2. apply lookup_insert_eq. }
  split.
  { rewrite Hi3. apply lookup_delete_eq. }
  rewrite Hv3, lookup_delete_ne by done. rewrite Hv2. apply lookup_insert_eq.
Qed.

(** ** Further properties of the methods *)

Lemma registry_eq (s s' : Registry) :
  _views s = _views s' → _indexByModel s = _indexByModel s' →
  _indexByCustom s = _indexByCustom s' → length s = length s' → s = s'.
Proof. destruct s, s'; simpl. by intros -> -> -> ->. Qed.

(** A falsy custom key is as good as none. *)
Lemma storeView_falsy_key (view : Ref) (k : option string) (s : Registry) :
  truthy k = false → storeView view k s = storeView view None s.
Proof.
  intros Hk. unfold storeView. destruct view as [| |v]; [done|done|].
  run. by rewrite Hk.
Qed.

Lemma truthy_key_nonempty (k : option string) :
  truthy k = true → property_key k ≠ "".
Proof.
  destruct k as [key|]; [|done]. simpl.
  intros Hk%negb_true_iff. by apply String.eqb_neq.
Qed.

(** [attach] of a view bound to a collection or to a model returns; its
    events concern that view only, and the render hook is among them
    exactly when the view has no collection. *)
Lemma attach_returns (v : View) (s : Registry) :
  is_Some (collection v) ∨ is_Some (model v) →
  ∃ t, attach (RView v) s = Return tt s t
    ∧ (EvRender (cid v) ∈ t ↔ collection v = None)
    ∧ (∀ c, EvRender c ∈ t → c = cid v).
Proof.
  intros Hv. unfold attach. run.
  destruct (collection v) as [col|] eqn:Hc.
  - eexists. split; [done|]. split; [|by intros c ?%elem_of_nil].
    split; [by intros ?%elem_of_nil|done].
  - destruct Hv as [[? [=]]|[m Hm]]. rewrite Hm.
    destruct (template v) as [tpl|]; simpl; eexists; (split; [done|]);
      (split; [split; [done|intros _; repeat constructor]|]);
      intros c Hin; repeat (apply elem_of_cons in Hin as [Hin|Hin]);
      simplify_eq; try done; by apply elem_of_nil in Hin.
Qed.

Lemma attach_events_state (v : View) (s s' : Registry) :
  events (attach (RView v) s) = events (attach (RView v) s').
Proof.
  unfold attach. run.
  destruct (collection v); [done|]. destruct (model v); [|done].
  by destruct (template v).
Qed.

Lemma attach_final_state (view : Ref) (s : Registry) :
  final_state (attach view s) = s.
Proof.
  destruct view as [| |v]; [done|done|]. unfold attach. run.
  destruct (collection v); [done|]. destruct (model v); [|done].
  by destruct (template v).
Qed.

(** Iterating a state-preserving callback preserves the state. *)
Lemma each_entries_final_state {V} (entries : list (string * V))
    (iterator : V → M unit) (s : Registry) :
  (∀ value s0, final_state (iterator value s0) = s0) →
  final_state (each_entries entries iterator s) = s.
Proof.
  intros Hit. revert s. induction entries as [|[key value] rest IH]; intros s; [done|].
  change (each_entries ((key, value) :: rest) iterator s)
    with ((iterator value;; each_entries rest iterator) s).
  unfold mbind, M_bind, bind. specialize (Hit value s).
  destruct (iterator value s) as [[] s1 t1|e s1 t1]; simpl in Hit; subst s1; [|done].
  specialize (IH s). by destruct (each_entries rest iterator s).
Qed.

(** [_.each] with the iterator of [attachViews], when every entry can be
    attached: the events of each [attach], in enumeration order. *)
Lemma each_entries_attach (entries : list (string * View)) (s : Registry) :
  (∀ kv, kv ∈ entries → is_Some (collection kv.2) ∨ is_Some (model kv.2)) →
  each_entries entries (λ view, this_call "attach" (attach (RView view))) s
  = Return tt s (entries ≫= λ kv, events (attach (RView kv.2) s)).
Proof.
  induction entries as [|[key view] rest IH]; intros Hall; [done|].
  change (each_entries ((key, view) :: rest) ?it s)
    with ((it view;; each_entries rest it) s).
  unfold mbind at 1, M_bind, bind. rewrite this_call_bound by reflexivity.
  destruct (attach_returns view s) as (t & Hrun & _).
  { apply (Hall (key, view)). by left. }
  rewrite Hrun, IH by (intros kv Hkv; apply Hall; by right).
  simpl. by rewrite Hrun.
Qed.

(** [_.each] with the iterator of [attachViews], when some entry has
    neither a collection nor a model: the iteration throws there. *)
Lemma each_entries_attach_raises (entries : list (string * View)) (s : Registry) :
  (∃ kv, kv ∈ entries ∧ collection kv.2 = None ∧ model kv.2 = None) →
  ∃ t, each_entries entries (λ view, this_call "attach" (attach (RView view))) s
       = Raise (TypeError "Cannot read property 'attributes' of undefined") s t.
Proof.
  induction entries as [|[key view] rest IH]; intros (kv & Hin & Hc & Hm).
  { by apply elem_of_nil in Hin. }
  change (each_entries ((key, view) :: rest) ?it s)
    with ((it view;; each_entries rest it) s).
  unfold mbind at 1, M_bind, bind. rewrite this_call_bound by reflexivity.
  destruct (collection view) as [col|] eqn:Hcv; [|destruct (model view) as [m|] eqn:Hmv].
  3: { rewrite (attach_without_model_raises view s Hcv Hmv). by eexists. }
  all: destruct (attach_returns view s) as (t & Hrun & _); [eauto|];
    rewrite Hrun;
    apply elem_of_cons in Hin as [->|Hin]; [simpl in *; congruence|];
    destruct IH as (t' & ->); [by exists kv|]; by eexists.
Qed.

(** What every reachable state satisfies, disciplined caller or not. *)
Lemma reachable_shape (s : Registry) :
  reachable s →
  (∀ c v, _views s !! c = Some v → cid v = c)
  ∧ (length s = None ∧ _views s = ∅ ∨ length s = Some (size (_views s)))
  ∧ _indexByCustom s !! "" = None.
Proof.
  induction 1 as [|s op _ (Hkey & Hlen & Hempty)].
  { split; [|split]; [|by left|done]. intros c v. simpl. by rewrite lookup_empty. }
  destruct (run_op_cases op s)
    as [(_ & _ & ->)|[(v & k & _ & ->)|(v & _ & _ & ->)]]; [done|..].
  - destruct (storeView_spec v k s) as (s' & -> & Hv & _ & Hc & Hl); simpl.
    rewrite Hv, Hc. split; [|split; [by right; rewrite Hl, Hv|]].
    + intros c v'. rewrite lookup_insert. case_decide; [congruence|apply Hkey].
    + destruct (truthy k) eqn:Hk; [|done].
      destruct (assign_cases (property_key k) (cid v) (_indexByCustom s))
        as [-> | ->]; [done|].
      rewrite lookup_insert_ne; [done|]. by apply truthy_key_nonempty.
  - destruct (removeFromContainer_spec v s) as (s' & -> & Hv & _ & Hc & Hl); simpl.
    rewrite Hv. split; [|split; [by right; rewrite Hl, Hv|]].
    + intros c v'. rewrite lookup_delete. case_decide; [done|apply Hkey].
    + destruct Hc as [[_ ->]|(key & _ & ->)]; [done|].
      rewrite lookup_delete. by case_decide.
Qed.

(** [createView] throws what the constructor throws, or stores what it
    yields. *)
Lemma createView_cases (ViewType : Constructor) (options : Options)
    (k : option string) (s : Registry) :
  (∃ e, ViewType options = inl e
     ∧ createView ViewType options k s = Raise e s [])
  ∨ (∃ v s', ViewType options = inr v
       ∧ storeView (RView v) k s = Return tt s' []
       ∧ createView ViewType options k s = Return (RView v) s' []).
Proof.
  unfold createView, new. destruct (ViewType options) as [e|v].
  { left. by exists e. }
  right. destruct (storeView_spec v k s) as (s' & Hrun & _).
  exists v, s'. split; [done|]. split; [done|].
  pose proof (storeView_falsy_key (RView v) k s) as Hfalsy.
  run. unfold this_call; simpl.
  destruct (truthy k); [|rewrite <- Hfalsy by done]; by rewrite Hrun.
Qed.

(** X1.  [createView] registers the view its constructor yields exactly as
    [storeView] would with the same custom key, returns that view, and
    the view is then found by its handle.  When the constructor throws,
    the exception is the result and nothing is registered. *)
Theorem createView_registers_or_propagates (ViewType : Constructor)
    (options : Options) (k : option string) (s : Registry) :
  (∀ v, ViewType options = inr v →
     ∃ s', storeView (RView v) k s = Return tt s' []
       ∧ createView ViewType options k s = Return (RView v) s' []
       ∧ _getByCid (Some (cid v)) s' = Return (RView v) s' [])
  ∧ (∀ e, ViewType options = inl e →
       createView ViewType options k s = Raise e s []).
Proof.
  destruct (createView_cases ViewType options k s)
    as [(e & Hctor & Hrun)|(v & s' & Hctor & Hstore & Hrun)]; rewrite Hctor.
  - split; [by intros v [=]|]. by intros e' [= <-].
  - split; [|by intros e [=]]. intros v' [= <-].
    exists s'. split; [done|]. split; [done|].
    destruct (storeView_spec v k s) as (s1 & Hrun1 & Hv & _).
    rewrite Hrun1 in Hstore. simplify_eq.
    rewrite getByCid_spec. f_equal. apply views_at_Some.
    rewrite Hv. apply lookup_insert_eq.
Qed.

(** X2.  [storeView(v, k)] makes [v] the view found by its handle and
    touches nothing else: every other handle, every model entry but the
    one of [v]'s model and every custom key but [k] read as before. *)
Theorem storeView_touches_own_entries (v : View) (k : option string) (s : Registry) :
  ∃ s', storeView (RView v) k s = Return tt s' []
    ∧ _getByCid (Some (cid v)) s' = Return (RView v) s' []
    ∧ (∀ c, c ≠ cid v → _views s' !! c = _views s !! c)
    ∧ (∀ modelCid, model_cid <$> model v ≠ Some modelCid →
         _indexByModel s' !! modelCid = _indexByModel s !! modelCid)
    ∧ (∀ key, k ≠ Some key → _indexByCustom s' !! key = _indexByCustom s !! key).
Proof.
  destruct (storeView_spec v k s) as (s' & Hrun & Hv & Hi & Hc & _).
  exists s'. split; [done|]. split.
  { rewrite getByCid_spec. f_equal. apply views_at_Some.
    rewrite Hv. apply lookup_insert_eq. }
  split; [intros c Hne; by rewrite Hv, lookup_insert_ne|]. split.
  - intros modelCid Hne. rewrite Hi. destruct (model v) as [m|]; [|done].
    rewrite lookup_insert_ne; [done|]. simpl in Hne. congruence.
  - intros key Hne. rewrite Hc. destruct k as [key'|]; [|done].
    destruct (truthy (Some key')); [|done]. simpl.
    destruct (assign_cases key' (cid v) (_indexByCustom s)) as [-> | ->]; [done|].
    rewrite lookup_insert_ne; [done|congruence].
Qed.

(** X3.  Storing a view a second time with the same custom key changes
    nothing: the registry after the second [storeView] is the registry
    after the first. *)
Theorem storeView_twice_is_once (v : View) (k : option string) (s : Registry) :
  ∃ s1, storeView (RView v) k s = Return tt s1 []
    ∧ storeView (RView v) k s1 = Return tt s1 [].
Proof.
  destruct (storeView_spec v k s) as (s1 & Hrun1 & Hv1 & Hi1 & Hc1 & Hl1).
  destruct (storeView_spec v k s1) as (s2 & Hrun2 & Hv2 & Hi2 & Hc2 & Hl2).
  exists s1. split; [done|]. rewrite Hrun2. f_equal.
  assert (Hv : _views s2 = _views s1).
  { by rewrite Hv2, Hv1, insert_insert_eq. }
  apply registry_eq; [done| | |by rewrite Hl2, Hl1, Hv].
  - rewrite Hi2, Hi1. destruct (model v); [|done]. by rewrite insert_insert_eq.
  - rewrite Hc2, Hc1. destruct (truthy k); [|done].
    unfold assign. destruct (String.eqb (property_key k) "__proto__"); [done|].
    by rewrite insert_insert_eq.
Qed.

(** X4.  When two different custom keys target a view's handle,
    [removeFromContainer] of that view leaves at least one of them in the
    custom index, targeting a handle that [_views] no longer has. *)
Theorem remove_leaves_second_custom_key (v : View) (k1 k2 : string) (s : Registry) :
  k1 ≠ k2 →
  _indexByCustom s !! k1 = Some (cid v) →
  _indexByCustom s !! k2 = Some (cid v) →
  ∃ s', removeFromContainer (RView v) s = Return tt s' []
    ∧ _views s' !! cid v = None
    ∧ ∃ key, _indexByCustom s' !! key = Some (cid v).
Proof.
  intros Hne H1 H2.
  destruct (removeFromContainer_spec v s) as (s' & Hrun & Hv & _ & Hc & _).
  exists s'. split; [done|]. split; [by rewrite Hv, lookup_delete_eq|].
  destruct Hc as [[_ ->]|(key & _ & ->)]; [by exists k1|].
  destruct (decide (key = k1)) as [->|Hk].
  - exists k2. by rewrite lookup_delete_ne.
  - exists k1. by rewrite lookup_delete_ne.
Qed.

(** X5.  A [storeView], [createView] or [removeFromContainer] call that
    throws, and a [removeView] of [null] or [undefined] that throws, has
    changed nothing and called no collaborator: it throws before its
    first assignment, and only when it is given no view ([null],
    [undefined], or a constructor that throws).  [removeView] of a view
    is left out: it calls [view.remove()] after the registry was
    changed, and what that call does is the view's. *)
Theorem failed_operation_changes_nothing (op : Op) (s s' : Registry)
    (e : Error) (t : list Event) :
  (∀ v, op ≠ OpRemoveView (RView v)) →
  run_op op s = Raise e s' t →
  s' = s ∧ t = [] ∧ stored op = None ∧ removed op = None.
Proof.
  intros Hop Hrun.
  destruct op as [view k|ViewType options k|view|view]; simpl in *.
  - destruct view as [| |v]; [by cbv in Hrun; simplify_eq..|].
    destruct (storeView_spec v k s) as (s1 & Hs & _). congruence.
  - destruct (createView_cases ViewType options k s)
      as [(e' & Hctor & Hc)|(v & s1 & Hctor & _ & Hc)];
      unfold mbind, M_bind, bind in Hrun; rewrite Hc in Hrun; simpl in Hrun;
      rewrite Hctor; by simplify_eq.
  - destruct view as [| |v]; [by cbv in Hrun; simplify_eq..|].
    destruct (removeFromContainer_spec v s) as (s1 & Hs & _). congruence.
  - destruct view as [| |v]; [by cbv in Hrun; simplify_eq..|].
    by destruct (Hop v).
Qed.

(** X6.  Rendering, bulk calls and lookups never change the registry,
    whether they return or throw: [attach], [attachSingleView],
    [attachViews], [apply], [_getByCid] and [_getByIndex] end in the state
    they started in. *)
Theorem rendering_and_lookups_keep_registry (s : Registry) :
  (∀ view, final_state (attach view s) = s)
  ∧ (∀ index, final_state (attachSingleView index s) = s)
  ∧ final_state (attachViews s) = s
  ∧ (∀ method args, final_state (apply method args s) = s)
  ∧ (∀ c, final_state (_getByCid c s) = s)
  ∧ (∀ index, final_state (_getByIndex index s) = s).
Proof.
  split; [intros view; apply attach_final_state|]. split.
  { intros index. unfold attachSingleView. run.
    pose proof (attach_final_state (views_at index s) s) as Hat.
    unfold this_call; simpl. by destruct (attach (views_at index s) s). }
  split.
  { assert (Hall : final_state (each_entries (enum View (_views s))
              (λ view, this_call "attach" (attach (RView view))) s) = s).
    { apply each_entries_final_state. intros view st.
      rewrite this_call_bound by reflexivity. apply attach_final_state. }
    unfold attachViews, _each. run. by destruct (each_entries _ _ s). }
  split; [|done].
  intros method args. unfold apply, _each. run. by rewrite each_entries_apply.
Qed.

(** X7.  The three lookups that go through an index, [_getByModel],
    [_getByModelCid] and [_getByCustom], throw a TypeError on every
    argument and in every state, each calling a member the prototype does
    not define; they leave the registry as it was. *)
Theorem index_lookups_always_throw (s : Registry) :
  (∀ m, _getByModel m s
        = Raise (TypeError "this.getByModelCid is not a function") s [])
  ∧ (∀ modelCid, _getByModelCid modelCid s
        = Raise (TypeError "this.getByCid is not a function") s [])
  ∧ (∀ index, _getByCustom index s
        = Raise (TypeError "this.getByCid is not a function") s []).
Proof. by repeat split. Qed.

(** X8.  In every state the controller can reach, each entry of [_views]
    sits under the [cid] of the view it holds: a lookup by handle never
    yields a view with another handle. *)
Theorem views_keyed_by_own_cid (s : Registry) (c : string) (v : View) :
  reachable s → _getByCid (Some c) s = Return (RView v) s [] → cid v = c.
Proof.
  intros (Hkey & _)%reachable_shape Hget. apply Hkey.
  rewrite getByCid_spec in Hget. unfold views_at in Hget.
  destruct (_views s !! c); by simplify_eq.
Qed.

(** X9.  In every state the controller can reach, [length] is either still
    [undefined], and then nothing is registered, or the number of entries
    of [_views]: it is never out of date. *)
Theorem length_never_stale (s : Registry) :
  reachable s →
  length s = None ∧ _views s = ∅ ∨ length s = Some (size (_views s)).
Proof. by intros (_ & Hlen & _)%reachable_shape. Qed.

(** X10.  The empty string is never a key of the custom index, in any
    state the controller can reach: [storeView] ignores a falsy custom
    key. *)
Theorem empty_string_never_custom_key (s : Registry) :
  reachable s → _indexByCustom s !! "" = None.
Proof. by intros (_ & _ & Hempty)%reachable_shape. Qed.

(** X17.  [length] counts registrations: [storeView] of a view whose
    handle is not yet registered makes it one more than the number of
    entries [_views] had, of a registered handle leaves it at that
    number; [removeFromContainer] makes it one less for a registered
    handle and leaves it at that number otherwise. *)
Theorem length_counts_registrations (v : View) (k : option string) (s : Registry) :
  ∃ s1 s2,
    storeView (RView v) k s = Return tt s1 []
    ∧ removeFromContainer (RView v) s = Return tt s2 []
    ∧ length s1 = Some (match _views s !! cid v with
                        | Some _ => size (_views s)
                        | None => S (size (_views s))
                        end)
    ∧ length s2 = Some (match _views s !! cid v with
                        | Some _ => pred (size (_views s))
                        | None => size (_views s)
                        end).
Proof.
  destruct (storeView_spec v k s) as (s1 & Hrun1 & Hv1 & _ & _ & Hl1).
  destruct (removeFromContainer_spec v s) as (s2 & Hrun2 & Hv2 & _ & _ & Hl2).
  exists s1, s2. split; [done|]. split; [done|].
  rewrite Hl1, Hl2, Hv1, Hv2, map_size_insert, map_size_delete.
  by destruct (_views s !! cid v).
Qed.

(** The events of [apply], in enumeration order. *)
Lemma apply_run (method : string) (args : option (list JsVal)) (s : Registry) :
  apply method args s
  = Return tt s
      ((λ kv, EvApply (cid kv.2) method (default [] args))
         <$> filter (λ kv, isFunction (members kv.2 !! method))
               (enum View (_views s))).
Proof. unfold apply, _each. run. by rewrite each_entries_apply. Qed.

Lemma attach_render_cid (v : View) (c : string) (s : Registry) :
  EvRender c ∈ events (attach (RView v) s) → c = cid v.
Proof.
  unfold attach. run.
  destruct (collection v); [by intros ?%elem_of_nil|].
  destruct (model v); [|by intros ?%elem_of_nil].
  destruct (template v); simpl; intros Hin;
    repeat (apply elem_of_cons in Hin as [Hin|Hin]); simplify_eq; try done;
    by apply elem_of_nil in Hin.
Qed.

(** Every event of [attachViews]'s iteration is an event of [attach] on an
    enumerated view, whether the iteration returns or throws. *)
Lemma each_entries_attach_events (entries : list (string * View)) (s : Registry)
    (ev : Event) :
  ev ∈ events (each_entries entries
                 (λ view, this_call "attach" (attach (RView view))) s) →
  ∃ kv, kv ∈ entries ∧ ev ∈ events (attach (RView kv.2) s).
Proof.
  induction entries as [|[key view] rest IH]; [by intros ?%elem_of_nil|].
  change (each_entries ((key, view) :: rest) ?it s)
    with ((it view;; each_entries rest it) s).
  unfold mbind at 1, M_bind, bind. rewrite this_call_bound by reflexivity.
  pose proof (attach_final_state (RView view) s) as Hst.
  destruct (attach (RView view) s) as [[] s1 t1|e s1 t1] eqn:Hat;
    simpl in Hst; subst s1.
  - intros Hin.
    assert (Hin' : ev ∈ t1 ∨ ev ∈ events (each_entries rest
              (λ view, this_call "attach" (attach (RView view))) s)).
    { destruct (each_entries rest _ s); simpl in *; by apply elem_of_app. }
    destruct Hin' as [Hin'|Hin'].
    + exists (key, view). split; [by left|]. simpl. by rewrite Hat.
    + destruct (IH Hin') as (kv & Hkv & Hev). exists kv. split; [by right|done].
  - simpl. intros Hin. exists (key, view). split; [by left|]. simpl. by rewrite Hat.
Qed.

(** ** Properties that rely on the enumeration

    From here on the enumeration lists the entries of the object, each
    once. *)

Hypothesis enum_perm : ∀ (V : Type) (obj : gmap string V), enum V obj ≡ₚ map_to_list obj.

Lemma enum_lookup {V} (obj : gmap string V) (key : string) (value : V) :
  (key, value) ∈ enum V obj ↔ obj !! key = Some value.
Proof. rewrite (enum_perm V obj). apply elem_of_map_to_list. Qed.

Lemma removeFromContainer_custom (v : View) (s s' : Registry) (t : list Event) :
  removeFromContainer (RView v) s = Return tt s' t →
  custom_index_after (cid v) (_indexByCustom s) (_indexByCustom s').
Proof.
  intros Hrun.
  destruct (removeFromContainer_spec v s) as (s1 & Hrun1 & _ & _ & Hc & _).
  rewrite Hrun1 in Hrun. simplify_eq.
  destruct Hc as [[Hall Heq]|(key & Hkey & Heq)].
  - left. split; [|done]. intros key Hkey. apply enum_lookup in Hkey.
    rewrite Forall_forall in Hall. by apply (Hall _ Hkey).
  - right. exists key. split; [|done]. by apply enum_lookup.
Qed.

Lemma registry_inv_new : registry_inv new_ViewController.
Proof. repeat split; simpl; intros *; by rewrite lookup_empty. Qed.

Lemma registry_inv_storeView (v : View) (k : option string) (s : Registry) :
  registry_inv s → same_handle_same_view s v → no_second_custom_key s v k →
  registry_inv (final_state (storeView (RView v) k s)).
Proof.
  intros (Hmodel & Hcustom & Hinj) Hsame Hkey.
  destruct (storeView_spec v k s) as (s' & -> & Hv & Hi & Hc & _); simpl.
  unfold registry_inv. rewrite Hv, Hi, Hc. split; [|split].
  - intros modelCid c Hlook.
    assert (Hold : _indexByModel s !! modelCid = Some c →
              ∃ v0, <[cid v:=v]> (_views s) !! c = Some v0
                ∧ model_cid <$> model v0 = Some modelCid).
    { intros (v0 & Hv0 & Hm0)%Hmodel. destruct (decide (c = cid v)) as [->|Hne].
      - rewrite (Hsame _ Hv0) in Hm0. exists v. by rewrite lookup_insert_eq.
      - exists v0. by rewrite lookup_insert_ne. }
    destruct (model v) as [m|] eqn:Hm; [|by apply Hold].
    rewrite lookup_insert in Hlook. case_decide as Hmc; [|by apply Hold].
    simplify_eq. exists v. rewrite lookup_insert_eq, Hm. done.
  - intros key c Hlook.
    assert (Hold : _indexByCustom s !! key = Some c →
              is_Some (<[cid v:=v]> (_views s) !! c)).
    { intros Hc0%Hcustom. rewrite lookup_insert. by case_decide. }
    destruct (truthy k); [|by apply Hold].
    destruct (assign_cases (property_key k) (cid v) (_indexByCustom s))
      as [Has|Has]; rewrite Has in Hlook; [by apply Hold|].
    rewrite lookup_insert in Hlook. case_decide; [|by apply Hold].
    simplify_eq. by rewrite lookup_insert_eq.
  - intros key key' c. destruct (truthy k) eqn:Ht; [|by apply Hinj].
    destruct (assign_cases (property_key k) (cid v) (_indexByCustom s))
      as [-> | ->]; [by apply Hinj|].
    rewrite !lookup_insert. specialize (Hkey Ht).
    repeat case_decide; intros; simplify_eq; try done.
    + symmetry. by apply Hkey.
    + by apply Hkey.
    + by eapply Hinj.
Qed.

Lemma registry_inv_removeFromContainer (v : View) (s : Registry) :
  registry_inv s → same_handle_same_view s v →
  registry_inv (final_state (removeFromContainer (RView v) s)).
Proof.
  intros (Hmodel & Hcustom & Hinj) Hsame.
  destruct (removeFromContainer_spec v s) as (s' & Hrun & Hv & Hi & _).
  pose proof (removeFromContainer_custom _ _ _ _ Hrun) as Hc.
  rewrite Hrun; simpl.
  unfold registry_inv. rewrite Hv, Hi. split; [|split].
  - intros modelCid c Hlook.
    assert (Hold : _indexByModel s !! modelCid = Some c).
    { destruct (model v); [|done]. by apply lookup_delete_Some in Hlook as [_ ?]. }
    destruct (Hmodel _ _ Hold) as (v0 & Hv0 & Hm0).
    destruct (decide (c = cid v)) as [->|Hne].
    + rewrite (Hsame _ Hv0) in Hm0. destruct (model v) as [m|]; [|done].
      simpl in Hm0. simplify_eq. by rewrite lookup_delete_eq in Hlook.
    + exists v0. by rewrite lookup_delete_ne.
  - intros key c Hlook.
    assert (Hold : _indexByCustom s !! key = Some c).
    { destruct Hc as [[_ Heq]|(key0 & _ & Heq)]; rewrite Heq in Hlook; [done|].
      by apply lookup_delete_Some in Hlook as [_ ?]. }
    destruct (decide (c = cid v)) as [->|Hne].
    + destruct Hc as [[Hnone _]|(key0 & Hkey0 & Heq)]; [by destruct (Hnone key)|].
      rewrite (Hinj _ _ _ Hold Hkey0), Heq, lookup_delete_eq in Hlook. done.
    + rewrite lookup_delete_ne by done. by eapply Hcustom.
  - intros key key' c H1 H2.
    destruct Hc as [[_ Heq]|(key0 & _ & Heq)]; rewrite Heq in H1, H2.
    + by eapply Hinj.
    + apply lookup_delete_Some in H1 as [_ H1].
      apply lookup_delete_Some in H2 as [_ H2]. by eapply Hinj.
Qed.

Lemma registry_inv_step (op : Op) (s : Registry) :
  registry_inv s → disciplined s op → registry_inv (final_state (run_op op s)).
Proof.
  intros Hinv Hop. unfold disciplined in Hop.
  destruct (run_op_cases op s)
    as [(_ & _ & ->)|[(v & k & Hst & ->)|(v & Hst & Hrm & ->)]]; [done|..].
  - rewrite Hst in Hop. destruct Hop. by apply registry_inv_storeView.
  - rewrite Hst, Hrm in Hop. by apply registry_inv_removeFromContainer.
Qed.

(** C3, amended.  For every view [v] and every non-empty string [k] other
    than [__proto__], after [storeView(v, k)] the custom index maps [k]
    to [v]'s handle and the lookup by handle, [_getByCid], returns [v].
    [removeFromContainer(v)] then deletes from the custom index exactly
    one key that targeted [v]'s handle, which is [k] itself when no other
    key targeted it before; so the custom index holds for [k] either
    nothing or still [v]'s handle, and the lookup by that handle returns
    [undefined]. *)
Theorem custom_key_resolves_until_removed (v : View) (k : string) (s : Registry) :
  k ≠ "" → k ≠ "__proto__" →
  ∃ s1 s2,
    storeView (RView v) (Some k) s = Return tt s1 []
    ∧ _indexByCustom s1 !! k = Some (cid v)
    ∧ _getByCid (Some (cid v)) s1 = Return (RView v) s1 []
    ∧ removeFromContainer (RView v) s1 = Return tt s2 []
    ∧ (∃ key, _indexByCustom s1 !! key = Some (cid v)
         ∧ _indexByCustom s2 = delete key (_indexByCustom s1))
    ∧ ((∀ k', k' ≠ k → _indexByCustom s !! k' ≠ Some (cid v)) →
         _indexByCustom s2 !! k = None)
    ∧ (_indexByCustom s2 !! k = None ∨ _indexByCustom s2 !! k = Some (cid v))
    ∧ _getByCid (Some (cid v)) s2 = Return RUndefined s2 [].
Proof.
  intros Hk Hproto.
  destruct (storeView_spec v (Some k) s) as (s1 & Hrun1 & Hv1 & _ & Hc1 & _).
  destruct (removeFromContainer_spec v s1) as (s2 & Hrun2 & Hv2 & _).
  pose proof (removeFromContainer_custom _ _ _ _ Hrun2) as Hc2.
  assert (Ht : truthy (Some k) = true).
  { simpl. apply negb_true_iff. by apply String.eqb_neq. }
  rewrite Ht in Hc1. simpl in Hc1. rewrite assign_other in Hc1 by done.
  assert (Hk1 : _indexByCustom s1 !! k = Some (cid v)).
  { rewrite Hc1. apply lookup_insert_eq. }
  destruct Hc2 as [[Hnone _]|(key & Hkey & Hdel)]; [by destruct (Hnone k)|].
  exists s1, s2. split; [done|]. split; [done|]. split.
  { rewrite getByCid_spec. f_equal. apply views_at_Some.
    rewrite Hv1. apply lookup_insert_eq. }
  split; [done|]. split; [by exists key|]. split; [|split].
  - intros Hother. rewrite Hdel.
    destruct (decide (key = k)) as [->|Hne]; [apply lookup_delete_eq|].
    destruct (Hother key Hne).
    by rewrite Hc1, lookup_insert_ne in Hkey.
  - rewrite Hdel, lookup_delete. case_decide; [by left|by right].
  - rewrite getByCid_spec. f_equal. apply views_at_None.
    rewrite Hv2. apply lookup_delete_eq.
Qed.

(** C5, amended.  In every state reached from a fresh controller by
    [storeView], [createView], [removeFromContainer] and [removeView],
    every handle held by the model index or the custom index is a key of
    [_views], provided that a handle names one view (the view stored or
    removed under a registered handle is the view registered under it) and
    that no view is stored under a custom key while another custom key
    targets its handle. *)
Theorem disciplined_indexes_closed (s : Registry) :
  reachable_disciplined s → index_closed s.
Proof.
  intros Hreach.
  assert (Hinv : registry_inv s).
  { induction Hreach; [apply registry_inv_new|by apply registry_inv_step]. }
  destruct Hinv as (Hmodel & Hcustom & _). split; [|done].
  intros modelCid c Hlook. destruct (Hmodel _ _ Hlook) as (v & Hv & _). by eexists.
Qed.

(** C8.  [apply(method, args)] returns, leaves the registry as it was, and
    calls [view[method].apply(view, args || [])] once for every entry of
    [_views] whose view has [method] as a function, the elements of [args]
    being the arguments of the call.  Nothing else happens: a view without
    such a member is not called and nothing is reported about it. *)
Theorem apply_invokes_exposing_views (method : string)
    (args : option (list JsVal)) (s : Registry) :
  ∃ t, apply method args s = Return tt s t
    ∧ t ≡ₚ (λ kv, EvApply (cid kv.2) method (default [] args))
            <$> filter (λ kv, isFunction (members kv.2 !! method))
                  (map_to_list (_views s))
    ∧ (∀ c v, _views s !! c = Some v → isFunction (members v !! method) →
         EvApply (cid v) method (default [] args) ∈ t)
    ∧ (∀ ev, ev ∈ t →
         ∃ c v, _views s !! c = Some v ∧ isFunction (members v !! method)
           ∧ ev = EvApply (cid v) method (default [] args)).
Proof.
  eexists. split.
  { unfold apply, _each. run. by rewrite each_entries_apply. }
  split; [by rewrite (enum_perm View (_views s))|].
  split.
  - intros c v Hv Hf. apply list_elem_of_fmap. exists (c, v). split; [done|].
    apply list_elem_of_filter. split; [done|]. by apply enum_lookup.
  - intros ev Hev. apply list_elem_of_fmap in Hev as ([c v] & -> & Hin).
    apply list_elem_of_filter in Hin as [Hf Hin]. apply enum_lookup in Hin.
    by exists c, v.
Qed.

(** C9, amended.  [removeFromContainer] of a view that was never
    registered returns normally and leaves [_views] and the custom index
    unchanged; the model index is unchanged only when the view has no
    bound model: otherwise the entry of that model is deleted, whichever
    registered view it targets. *)
Theorem remove_unregistered_view (v : View) (s : Registry) :
  never_registered (cid v) s →
  ∃ s', removeFromContainer (RView v) s = Return tt s' []
    ∧ _views s' = _views s
    ∧ _indexByCustom s' = _indexByCustom s
    ∧ _indexByModel s' =
        match model v with
        | Some m => delete (model_cid m) (_indexByModel s)
        | None => _indexByModel s
        end.
Proof.
  intros [Hv Hc]%never_registered_absent.
  destruct (removeFromContainer_spec v s) as (s' & Hrun & Hv' & Hi' & _).
  pose proof (removeFromContainer_custom _ _ _ _ Hrun) as Hc'.
  exists s'. split; [done|]. split.
  { rewrite Hv'. by apply delete_id. }
  split; [|done].
  destruct Hc' as [[_ ->]|(key & Hkey & _)]; [done|]. by destruct (Hc key).
Qed.

(** X11.  Registering a view and removing it again is a round trip: when
    the view's handle is not registered, no custom key targets it, and
    the entries its registration will write (its model's, its custom
    key's) are free, [storeView] followed by [removeFromContainer] gives
    back the three maps as they were. *)
Theorem store_then_remove_restores (v : View) (k : option string) (s : Registry) :
  _views s !! cid v = None →
  (∀ m, model v = Some m → _indexByModel s !! model_cid m = None) →
  (∀ key, _indexByCustom s !! key ≠ Some (cid v)) →
  (truthy k = true → _indexByCustom s !! property_key k = None) →
  ∃ s1 s2,
    storeView (RView v) k s = Return tt s1 []
    ∧ removeFromContainer (RView v) s1 = Return tt s2 []
    ∧ _views s2 = _views s
    ∧ _indexByModel s2 = _indexByModel s
    ∧ _indexByCustom s2 = _indexByCustom s
    ∧ length s2 = Some (size (_views s)).
Proof.
  intros Hv Hm Hc Hk.
  destruct (storeView_spec v k s) as (s1 & Hrun1 & Hv1 & Hi1 & Hc1 & _).
  destruct (removeFromContainer_spec v s1) as (s2 & Hrun2 & Hv2 & Hi2 & _ & Hl2).
  pose proof (removeFromContainer_custom _ _ _ _ Hrun2) as Hc2.
  assert (Hviews : _views s2 = _views s).
  { rewrite Hv2, Hv1. by apply delete_insert_id. }
  exists s1, s2. split; [done|]. split; [done|]. split; [done|]. split; [|split].
  - rewrite Hi2, Hi1. destruct (model v) as [m|]; [|done].
    apply delete_insert_id. by apply Hm.
  - rewrite Hc1 in Hc2. destruct (truthy k) eqn:Ht.
    + destruct (assign_cases (property_key k) (cid v) (_indexByCustom s))
        as [Has|Has]; rewrite Has in Hc2.
      { destruct Hc2 as [[_ ->]|(key & Hkey & _)]; [done|]. by destruct (Hc key). }
      destruct Hc2 as [[Hnone _]|(key & Hkey & ->)].
      { destruct (Hnone (property_key k)). apply lookup_insert_eq. }
      rewrite lookup_insert in Hkey. case_decide as Heq.
      * subst key. apply delete_insert_id. by apply Hk.
      * by destruct (Hc key).
    + destruct Hc2 as [[_ ->]|(key & Hkey & _)]; [done|]. by destruct (Hc key).
  - by rewrite Hl2, Hviews.
Qed.

(** X12.  [removeFromContainer(v)] unregisters [v]'s handle and nothing
    else: every other handle, every model entry but the one of [v]'s
    model, and every custom key that targets another handle read as
    before, and no custom entry appears. *)
Theorem removeFromContainer_touches_own_entries (v : View) (s : Registry) :
  ∃ s', removeFromContainer (RView v) s = Return tt s' []
    ∧ _getByCid (Some (cid v)) s' = Return RUndefined s' []
    ∧ (∀ c, c ≠ cid v → _views s' !! c = _views s !! c)
    ∧ (∀ modelCid, model_cid <$> model v ≠ Some modelCid →
         _indexByModel s' !! modelCid = _indexByModel s !! modelCid)
    ∧ (∀ key c, c ≠ cid v →
         _indexByCustom s' !! key = Some c ↔ _indexByCustom s !! key = Some c).
Proof.
  destruct (removeFromContainer_spec v s) as (s' & Hrun & Hv & Hi & _).
  pose proof (removeFromContainer_custom _ _ _ _ Hrun) as Hc.
  exists s'. split; [done|]. split.
  { rewrite getByCid_spec. f_equal. apply views_at_None.
    rewrite Hv. apply lookup_delete_eq. }
  split; [intros c Hne; by rewrite Hv, lookup_delete_ne|]. split.
  - intros modelCid Hne. rewrite Hi. destruct (model v) as [m|]; [|done].
    rewrite lookup_delete_ne; [done|]. simpl in Hne. congruence.
  - intros key c Hne. destruct Hc as [[_ ->]|(key0 & Hkey0 & ->)]; [done|].
    rewrite lookup_delete. case_decide as Heq; [|done].
    subst key0. rewrite Hkey0. split; [done|congruence].
Qed.

(** X13.  A custom key that was taken over by a second view survives the
    removal of the first: for a non-empty [k] other than [__proto__] and
    views with different handles, after [storeView(v1, k)],
    [storeView(v2, k)] and [removeFromContainer(v1)], [k] still targets
    [v2], which is still registered.  The custom index is cleaned by
    target, where the model index is cleaned by key. *)
Theorem custom_key_survives_previous_holder (v1 v2 : View) (k : string)
    (s : Registry) :
  k ≠ "" → k ≠ "__proto__" → cid v1 ≠ cid v2 →
  ∃ s1 s2 s3,
    storeView (RView v1) (Some k) s = Return tt s1 []
    ∧ storeView (RView v2) (Some k) s1 = Return tt s2 []
    ∧ removeFromContainer (RView v1) s2 = Return tt s3 []
    ∧ _indexByCustom s2 !! k = Some (cid v2)
    ∧ _indexByCustom s3 !! k = Some (cid v2)
    ∧ _getByCid (Some (cid v2)) s3 = Return (RView v2) s3 [].
Proof.
  intros Hk Hproto Hne.
  assert (Ht : truthy (Some k) = true).
  { simpl. apply negb_true_iff. by apply String.eqb_neq. }
  destruct (storeView_spec v1 (Some k) s) as (s1 & Hrun1 & _).
  destruct (storeView_spec v2 (Some k) s1) as (s2 & Hrun2 & Hv2 & _ & Hc2 & _).
  destruct (removeFromContainer_spec v1 s2) as (s3 & Hrun3 & Hv3 & _).
  pose proof (removeFromContainer_custom _ _ _ _ Hrun3) as Hc3.
  rewrite Ht in Hc2. simpl in Hc2. rewrite assign_other in Hc2 by done.
  assert (Hk2 : _indexByCustom s2 !! k = Some (cid v2)).
  { rewrite Hc2. apply lookup_insert_eq. }
  exists s1, s2, s3. repeat (split; [done|]). split.
  - destruct Hc3 as [[_ ->]|(key & Hkey & ->)]; [done|].
    rewrite lookup_delete_ne; [done|]. intros ->. congruence.
  - rewrite getByCid_spec. f_equal. apply views_at_Some.
    rewrite Hv3, lookup_delete_ne by done. rewrite Hv2. apply lookup_insert_eq.
Qed.

(** X14.  When every registered view is bound to a collection or to a
    model, [attachViews] returns and leaves the registry as it was; its
    events are those of [attach] on each registered view, so every view
    without a collection has its render hook invoked and no view with a
    collection has. *)
Theorem attachViews_attaches_every_view (s : Registry) :
  (∀ c v, _views s !! c = Some v → is_Some (collection v) ∨ is_Some (model v)) →
  ∃ t, attachViews s = Return tt s t
    ∧ t ≡ₚ (map_to_list (_views s) ≫= λ kv, events (attach (RView kv.2) s))
    ∧ (∀ c v, _views s !! c = Some v → collection v = None → EvRender (cid v) ∈ t)
    ∧ (∀ c', EvRender c' ∈ t →
         ∃ c v, _views s !! c = Some v ∧ cid v = c' ∧ collection v = None).
Proof.
  intros Hall.
  assert (Hentries : ∀ kv, kv ∈ enum View (_views s) →
            is_Some (collection kv.2) ∨ is_Some (model kv.2)).
  { intros [c v] Hin%enum_lookup. by apply (Hall c v). }
  eexists. split.
  { unfold attachViews, _each. run. by rewrite each_entries_attach. }
  split; [by rewrite (enum_perm View (_views s))|]. split.
  - intros c v Hv Hc. apply list_elem_of_bind. exists (c, v).
    split; [|by apply enum_lookup]. simpl.
    destruct (attach_returns v s (Hall c v Hv)) as (t & Hrun & Hrender & _).
    rewrite Hrun. simpl. by apply Hrender.
  - intros c' Hin. apply list_elem_of_bind in Hin as ([c v] & Hin & Hkv).
    simpl in Hin. pose proof Hkv as Hv%enum_lookup.
    destruct (attach_returns v s (Hall c v Hv)) as (t & Hrun & Hrender & Hcid).
    rewrite Hrun in Hin. simpl in Hin.
    pose proof (Hcid _ Hin) as ->. exists c, v. split; [done|]. split; [done|].
    by apply Hrender.
Qed.

(** X15.  One registered view bound to neither a collection nor a model
    makes [attachViews] throw a TypeError, whatever else is registered. *)
Theorem attachViews_throws_on_unbound_view (s : Registry) (c : string) (v : View) :
  _views s !! c = Some v → collection v = None → model v = None →
  ∃ t, attachViews s
       = Raise (TypeError "Cannot read property 'attributes' of undefined") s t.
Proof.
  intros Hv Hc Hm.
  destruct (each_entries_attach_raises (enum View (_views s)) s) as (t & Hrun).
  { exists (c, v). split; [by apply enum_lookup|done]. }
  exists t. unfold attachViews, _each. run. by rewrite Hrun.
Qed.

(** X16.  [_getByIndex(i)] returns a registered view for every index below
    the number of entries of [_views], [undefined] for every index from
    that number on, and every registered view is at some index. *)
Theorem getByIndex_bounds (s : Registry) :
  (∀ i, size (_views s) ≤ i → _getByIndex i s = Return RUndefined s [])
  ∧ (∀ i, i < size (_views s) →
       ∃ c v, _views s !! c = Some v ∧ _getByIndex i s = Return (RView v) s [])
  ∧ (∀ c v, _views s !! c = Some v →
       ∃ i, i < size (_views s) ∧ _getByIndex i s = Return (RView v) s []).
Proof.
  assert (Hlen : List.length (enum View (_views s)) = size (_views s)).
  { rewrite (enum_perm View (_views s)). apply length_map_to_list. }
  assert (Hrun : ∀ i, _getByIndex i s
            = Return (match (enum View (_views s)).*2 !! i with
                      | Some v => RView v
                      | None => RUndefined
                      end) s []) by done.
  split; [|split].
  - intros i Hi. rewrite Hrun.
    rewrite (proj2 (lookup_ge_None _ i)); [done|]. by rewrite length_fmap, Hlen.
  - intros i Hi.
    destruct (lookup_lt_is_Some_2 (enum View (_views s)) i) as [[c v] Hkv]; [by rewrite Hlen|].
    exists c, v. split.
    + apply enum_lookup. apply list_elem_of_lookup. by exists i.
    + by rewrite Hrun, list_lookup_fmap, Hkv.
  - intros c v Hv%enum_lookup. apply list_elem_of_lookup in Hv as [i Hi].
    exists i. split.
    + rewrite <- Hlen. by eapply lookup_lt_Some.
    + by rewrite Hrun, list_lookup_fmap, Hi.
Qed.

(** X18.  Removing a view twice is removing it once, as long as at most
    one custom key targets its handle: the second [removeFromContainer]
    returns and leaves the registry as the first left it. *)
Theorem remove_twice_is_once (v : View) (s : Registry) :
  (∀ k k', _indexByCustom s !! k = Some (cid v) →
     _indexByCustom s !! k' = Some (cid v) → k = k') →
  ∃ s1, removeFromContainer (RView v) s = Return tt s1 []
    ∧ removeFromContainer (RView v) s1 = Return tt s1 [].
Proof.
  intros Hinj.
  destruct (removeFromContainer_spec v s) as (s1 & Hrun1 & Hv1 & Hi1 & _ & Hl1).
  pose proof (removeFromContainer_custom _ _ _ _ Hrun1) as Hc1.
  destruct (removeFromContainer_spec v s1) as (s2 & Hrun2 & Hv2 & Hi2 & _ & Hl2).
  pose proof (removeFromContainer_custom _ _ _ _ Hrun2) as Hc2.
  exists s1. split; [done|]. rewrite Hrun2. f_equal.
  assert (Hv : _views s2 = _views s1).
  { rewrite Hv2. apply delete_id. rewrite Hv1. apply lookup_delete_eq. }
  apply registry_eq; [done| | |by rewrite Hl2, Hl1, Hv].
  - rewrite Hi2. destruct (model v) as [m|]; [|done].
    apply delete_id. rewrite Hi1. apply lookup_delete_eq.
  - destruct Hc2 as [[_ ->]|(key & Hkey & _)]; [done|]. exfalso.
    destruct Hc1 as [[Hnone Heq]|(key0 & Hkey0 & Heq)]; rewrite Heq in Hkey.
    + by destruct (Hnone key).
    + apply lookup_delete_Some in Hkey as [Hne Hkey].
      by destruct Hne; apply Hinj.
Qed.

(** X19.  A view that has been stored receives the bulk calls: after
    [storeView(v, k)], [apply(method, args)] calls [v]'s member [method]
    with the elements of [args] whenever that member is a function. *)
Theorem stored_view_receives_apply (v : View) (k : option string)
    (method : string) (args : option (list JsVal)) (s : Registry) :
  isFunction (members v !! method) →
  ∃ s', storeView (RView v) k s = Return tt s' []
    ∧ EvApply (cid v) method (default [] args) ∈ events (apply method args s').
Proof.
  intros Hf. destruct (storeView_spec v k s) as (s' & Hrun & Hv & _).
  exists s'. split; [done|]. rewrite apply_run. simpl.
  apply list_elem_of_fmap. exists (cid v, v). split; [done|].
  apply list_elem_of_filter. split; [done|].
  apply enum_lookup. rewrite Hv. apply lookup_insert_eq.
Qed.

(** X20.  A view that has been removed is left alone: in any state the
    controller can reach, after [removeFromContainer(v)] no [apply] calls
    a member of [v] and [attachViews] does not invoke [v]'s render
    hook. *)
Theorem removed_view_is_left_alone (v : View) (s : Registry)
    (method : string) (args : option (list JsVal)) (a : list JsVal) :
  reachable s →
  ∃ s', removeFromContainer (RView v) s = Return tt s' []
    ∧ (EvApply (cid v) method a ∉ events (apply method args s'))
    ∧ (EvRender (cid v) ∉ events (attachViews s')).
Proof.
  intros Hreach.
  destruct (removeFromContainer_spec v s) as (s' & Hrun & Hv & _).
  assert (Hkey : ∀ c v', _views s' !! c = Some v' → cid v' ≠ cid v).
  { intros c v' Hv' Heq.
    assert (Hreach' : reachable s').
    { replace s' with (final_state (run_op (OpRemoveFromContainer (RView v)) s));
        [by apply reachable_step|]. simpl. by rewrite Hrun. }
    apply reachable_shape in Hreach' as (Hown & _).
    rewrite <- (Hown _ _ Hv'), Heq, Hv, lookup_delete_eq in Hv'. done. }
  exists s'. split; [done|]. split.
  - rewrite apply_run. simpl.
    intros ([c v'] & Heq & Hin)%list_elem_of_fmap.
    apply list_elem_of_filter in Hin as [_ Hin%enum_lookup].
    apply (Hkey c v' Hin). simpl in Heq. congruence.
  - unfold attachViews, _each. run.
    intros Hin.
    assert (Hin' : EvRender (cid v) ∈ events (each_entries (enum View (_views s'))
              (λ view, this_call "attach" (attach (RView view))) s')).
    { by destruct (each_entries _ _ s'). }
    apply each_entries_attach_events in Hin' as ([c v'] & Hkv%enum_lookup & Hev).
    apply attach_render_cid in Hev. by apply (Hkey c v').
Qed.

End Controller.

(** ** The properties on the sample collaborators *)

Lemma map_order_perm (V : Type) (obj : gmap string V) :
  map_order V obj ≡ₚ map_to_list obj.
Proof. done. Qed.

(** C1: a view bound to a collection is not rendered by [attach]; nor is
    a view bound to neither a collection nor a model, on which [attach]
    throws. *)
Lemma attach_collection_view_not_rendered :
  is_Some (collection list_view)
  ∧ EvRender (cid list_view) ∉ events (attach (RView list_view) new_ViewController)
  ∧ collection bare_view = None
  ∧ EvRender (cid bare_view) ∉ events (attach (RView bare_view) new_ViewController).
Proof.
  split; [by eexists|]. split; [apply not_elem_of_nil|].
  split; [reflexivity|apply not_elem_of_nil].
Qed.

Lemma attach_renders_model_views_only_witness :
  attach (RView list_view) new_ViewController = Return tt new_ViewController []
  ∧ attach (RView view1) new_ViewController
    = Return tt new_ViewController [EvHtml "view1" "<p>x</p>"; EvRender "view1"].
Proof.
  split.
  - apply (attach_renders_model_views_only list_view new_ViewController).
    by eexists.
  - apply (proj2 (attach_renders_model_views_only view1 new_ViewController) model1);
      reflexivity.
Defined.

(** C3: stored under the empty string, a view gets no custom entry:
    resolving the key through the custom index and then by handle yields
    [undefined], and the lookup does not return the view.  Stored under
    [__proto__], it gets no custom entry either. *)
Lemma storeView_empty_key_not_indexed :
  _indexByCustom (final_state (storeView (RView view1) (Some "") new_ViewController))
    !! "" = None
  ∧ _getByCid
      (_indexByCustom (final_state (storeView (RView view1) (Some "") new_ViewController))
         !! "")
      (final_state (storeView (RView view1) (Some "") new_ViewController))
    = Return RUndefined
        (final_state (storeView (RView view1) (Some "") new_ViewController)) []
  ∧ returned (_getByCustom ""
      (final_state (storeView (RView view1) (Some "") new_ViewController)))
    ≠ Some (RView view1)
  ∧ _indexByCustom
      (final_state (storeView (RView view1) (Some "__proto__") new_ViewController))
    !! "__proto__" = None.
Proof.
  split; [reflexivity|]. split; [reflexivity|]. split; [discriminate|reflexivity].
Qed.

Lemma custom_key_resolves_until_removed_witness :
  "alpha" ≠ "" ∧ "alpha" ≠ "__proto__"
  ∧ ∃ s1 s2,
      storeView (RView view1) (Some "alpha") new_ViewController = Return tt s1 []
      ∧ _indexByCustom s1 !! "alpha" = Some (cid view1)
      ∧ _getByCid (Some (cid view1)) s1 = Return (RView view1) s1 []
      ∧ removeFromContainer map_order (RView view1) s1 = Return tt s2 []
      ∧ (∃ key, _indexByCustom s1 !! key = Some (cid view1)
           ∧ _indexByCustom s2 = delete key (_indexByCustom s1))
      ∧ ((∀ k', k' ≠ "alpha" →
            _indexByCustom new_ViewController !! k' ≠ Some (cid view1)) →
           _indexByCustom s2 !! "alpha" = None)
      ∧ (_indexByCustom s2 !! "alpha" = None
         ∨ _indexByCustom s2 !! "alpha" = Some (cid view1))
      ∧ _getByCid (Some (cid view1)) s2 = Return RUndefined s2 [].
Proof.
  split; [discriminate|]. split; [discriminate|].
  apply (custom_key_resolves_until_removed map_order map_order_perm view1 "alpha"
           new_ViewController); discriminate.
Defined.

(** C4: on a fresh controller, [attachSingleView] of any handle throws. *)
Lemma attachSingleView_unknown_not_noop :
  _views new_ViewController !! "view9" = None
  ∧ attachSingleView "view9" new_ViewController ≠ Return tt new_ViewController [].
Proof. split; [reflexivity|discriminate]. Qed.

Lemma attachSingleView_unknown_raises_witness :
  _views new_ViewController !! "view9" = None
  ∧ attachSingleView "view9" new_ViewController
    = Raise (TypeError "Cannot read property of undefined") new_ViewController [].
Proof.
  split; [reflexivity|].
  apply (attachSingleView_unknown_raises "view9" new_ViewController). reflexivity.
Defined.

(** C5: a view stored under two custom keys and then removed leaves one of
    the keys behind, targeting a handle [_views] no longer has. *)
Lemma double_registration_breaks_closure :
  reachable map_order
    (final_state (run_ops map_order
       [OpStoreView (RView view1) (Some "alpha");
        OpStoreView (RView view1) (Some "beta");
        OpRemoveFromContainer (RView view1)] new_ViewController))
  ∧ ¬ index_closed
    (final_state (run_ops map_order
       [OpStoreView (RView view1) (Some "alpha");
        OpStoreView (RView view1) (Some "beta");
        OpRemoveFromContainer (RView view1)] new_ViewController)).
Proof.
  split; [apply reachable_run_ops, reachable_new|].
  intros [_ Hcustom].
  destruct (Hcustom "beta" "view1") as [v Hv]; [by vm_compute|].
  vm_compute in Hv. discriminate.
Qed.

Lemma disciplined_indexes_closed_witness :
  reachable_disciplined map_order
    (final_state (run_op map_order (OpRemoveView (RView view1))
      (final_state (run_op map_order (OpStoreView (RView view2) None)
        (final_state (run_op map_order (OpStoreView (RView view1) (Some "alpha"))
          new_ViewController))))))
  ∧ index_closed
    (final_state (run_op map_order (OpRemoveView (RView view1))
      (final_state (run_op map_order (OpStoreView (RView view2) None)
        (final_state (run_op map_order (OpStoreView (RView view1) (Some "alpha"))
          new_ViewController)))))).
Proof.
  assert (Hreach : reachable_disciplined map_order
    (final_state (run_op map_order (OpRemoveView (RView view1))
      (final_state (run_op map_order (OpStoreView (RView view2) None)
        (final_state (run_op map_order (OpStoreView (RView view1) (Some "alpha"))
          new_ViewController))))))).
  { repeat apply disciplined_step; [apply disciplined_new|..].
    - split.
      + intros v' Hv'. vm_compute in Hv'. discriminate.
      + intros _ key Hkey. vm_compute in Hkey. discriminate.
    - split.
      + intros v' Hv'. vm_compute in Hv'. discriminate.
      + intros Ht. vm_compute in Ht. discriminate.
    - intros v' Hv'. vm_compute in Hv'. by injection Hv' as <-. }
  split; [exact Hreach|].
  exact (disciplined_indexes_closed map_order map_order_perm _ Hreach).
Defined.

Lemma second_store_overwrites_model_index_witness :
  model view1 = Some model1 ∧ model view2 = Some model1 ∧ cid view1 ≠ cid view2
  ∧ ∃ s1 s2,
      storeView (RView view1) None new_ViewController = Return tt s1 []
      ∧ storeView (RView view2) None s1 = Return tt s2 []
      ∧ _indexByModel s2 !! model_cid model1 = Some (cid view2)
      ∧ _getByCid (Some (cid view1)) s2 = Return (RView view1) s2 []
      ∧ _getByCid (Some (cid view2)) s2 = Return (RView view2) s2 []
      ∧ _getByModelCid (model_cid model1) s2
        = Raise (TypeError "this.getByCid is not a function") s2 [].
Proof.
  split; [reflexivity|]. split; [reflexivity|]. split; [discriminate|].
  apply (second_store_overwrites_model_index view1 view2 model1 None None
           new_ViewController); [reflexivity|reflexivity|discriminate].
Defined.

(** C7: [removeView(null)] on a fresh controller returns, and [length] is
    still [undefined], not the number of entries of [_views]. *)
Lemma removeView_null_leaves_length_undefined :
  run_op map_order (OpRemoveView RNull) new_ViewController
  = Return tt new_ViewController []
  ∧ length new_ViewController ≠ Some (size (_views new_ViewController)).
Proof. split; [reflexivity|discriminate]. Qed.

Lemma length_recomputed_by_mutations_witness :
  length (final_state (run_op map_order (OpRemoveView (RView view1))
            (final_state (storeView (RView view1) (Some "alpha") new_ViewController))))
  = Some 0
  ∧ ∃ s', storeViews [(view1, Some "alpha"); (view2, None)] new_ViewController
          = Return tt s' []
      ∧ length s' = Some 2.
Proof.
  split.
  - rewrite (proj1 (length_recomputed_by_mutations map_order)
               (OpRemoveView (RView view1))
               (final_state (storeView (RView view1) (Some "alpha") new_ViewController))
               (final_state (run_op map_order (OpRemoveView (RView view1))
                  (final_state (storeView (RView view1) (Some "alpha")
                     new_ViewController))))
               [EvEmpty "view1"; EvUndelegate "view1"]);
      [by vm_compute|by vm_compute|discriminate].
  - apply (proj2 (proj2 (length_recomputed_by_mutations map_order))
             [(view1, Some "alpha"); (view2, None)]); [discriminate|].
    compute_done.
Defined.

Lemma apply_invokes_exposing_views_witness :
  apply map_order "customMethod" (Some [JNum 1; JNum 2])
    (final_state (storeViews [(view1, Some "alpha"); (view2, None)] new_ViewController))
  = Return tt
      (final_state (storeViews [(view1, Some "alpha"); (view2, None)] new_ViewController))
      [EvApply "view1" "customMethod" [JNum 1; JNum 2]].
Proof.
  destruct (apply_invokes_exposing_views map_order map_order_perm "customMethod"
              (Some [JNum 1; JNum 2])
              (final_state (storeViews [(view1, Some "alpha"); (view2, None)]
                 new_ViewController)))
    as (t & Hrun & Hperm & _).
  rewrite Hrun. f_equal.
  vm_compute in Hperm. by apply Permutation_singleton_r in Hperm.
Defined.

(** C9: a view that was never registered, bound to the model of a
    registered view: removing it changes the model index. *)
Lemma remove_unregistered_changes_model_index :
  never_registered map_order (cid view2)
    (final_state (run_op map_order (OpStoreView (RView view1) None) new_ViewController))
  ∧ _indexByModel
      (final_state (removeFromContainer map_order (RView view2)
         (final_state (run_op map_order (OpStoreView (RView view1) None)
            new_ViewController))))
    ≠ _indexByModel
        (final_state (run_op map_order (OpStoreView (RView view1) None)
           new_ViewController)).
Proof.
  split.
  - apply never_step; [apply never_new|].
    intros v k [= <- <-]. discriminate.
  - intros Heq. apply (f_equal (.!! "c1")) in Heq. vm_compute in Heq. discriminate.
Qed.

Lemma remove_unregistered_view_witness :
  never_registered map_order (cid view2)
    (final_state (run_op map_order (OpStoreView (RView view1) None) new_ViewController))
  ∧ ∃ s', removeFromContainer map_order (RView view2)
            (final_state (run_op map_order (OpStoreView (RView view1) None)
               new_ViewController))
          = Return tt s' []
      ∧ _views s'
        = _views (final_state (run_op map_order (OpStoreView (RView view1) None)
                    new_ViewController))
      ∧ _indexByCustom s'
        = _indexByCustom (final_state (run_op map_order
                            (OpStoreView (RView view1) None) new_ViewController))
      ∧ _indexByModel s'
        = delete "c1"
            (_indexByModel (final_state (run_op map_order
                              (OpStoreView (RView view1) None) new_ViewController))).
Proof.
  assert (Hnever : never_registered map_order (cid view2)
    (final_state (run_op map_order (OpStoreView (RView view1) None)
       new_ViewController))).
  { apply never_step; [apply never_new|].
    intros v k [= <- <-]. discriminate. }
  split; [exact Hnever|].
  exact (remove_unregistered_view map_order map_order_perm view2 _ Hnever).
Defined.

Lemma remove_deletes_shared_model_entry_witness :
  model view1 = Some model1 ∧ model view2 = Some model1 ∧ cid view1 ≠ cid view2
  ∧ ∃ s1 s2 s3,
      storeView (RView view1) None new_ViewController = Return tt s1 []
      ∧ storeView (RView view2) None s1 = Return tt s2 []
      ∧ removeFromContainer map_order (RView view1) s2 = Return tt s3 []
      ∧ _indexByModel s2 !! model_cid model1 = Some (cid view2)
      ∧ _indexByModel s3 !! model_cid model1 = None
      ∧ _views s3 !! cid view2 = Some view2.
Proof.
  split; [reflexivity|]. split; [reflexivity|]. split; [discriminate|].
  apply (remove_deletes_shared_model_entry map_order view1 view2 model1 None None
           new_ViewController); [reflexivity|reflexivity|discriminate].
Defined.

(** ** The further properties on the sample collaborators *)

Lemma remove_leaves_second_custom_key_witness :
  "alpha" ≠ "beta"
  ∧ _indexByCustom (final_state (storeViews
        [(view1, Some "alpha"); (view1, Some "beta")] new_ViewController))
      !! "alpha" = Some (cid view1)
  ∧ _indexByCustom (final_state (storeViews
        [(view1, Some "alpha"); (view1, Some "beta")] new_ViewController))
      !! "beta" = Some (cid view1)
  ∧ ∃ s', removeFromContainer map_order (RView view1)
            (final_state (storeViews
               [(view1, Some "alpha"); (view1, Some "beta")] new_ViewController))
          = Return tt s' []
      ∧ _views s' !! cid view1 = None
      ∧ ∃ key, _indexByCustom s' !! key = Some (cid view1).
Proof.
  split; [discriminate|]. split; [reflexivity|]. split; [reflexivity|].
  apply (remove_leaves_second_custom_key map_order view1 "alpha" "beta");
    [discriminate|reflexivity|reflexivity].
Defined.

Lemma failed_operation_changes_nothing_witness :
  run_op map_order (OpRemoveView RUndefined)
    (final_state (storeView (RView view1) (Some "alpha") new_ViewController))
  = Raise (TypeError "Cannot read property of undefined")
      (final_state (storeView (RView view1) (Some "alpha") new_ViewController)) []
  ∧ stored (OpRemoveView RUndefined) = None
  ∧ removed (OpRemoveView RUndefined) = None.
Proof.
  split; [reflexivity|].
  apply (failed_operation_changes_nothing map_order (OpRemoveView RUndefined)
           (final_state (storeView (RView view1) (Some "alpha") new_ViewController))
           (final_state (storeView (RView view1) (Some "alpha") new_ViewController))
           (TypeError "Cannot read property of undefined") []).
  - intros v. discriminate.
  - reflexivity.
Defined.

Lemma views_keyed_by_own_cid_witness :
  reachable map_order
    (final_state (run_op map_order (OpStoreView (RView view1) (Some "alpha"))
       new_ViewController))
  ∧ cid view1 = "view1".
Proof.
  assert (Hreach : reachable map_order
    (final_state (run_op map_order (OpStoreView (RView view1) (Some "alpha"))
       new_ViewController))) by apply reachable_step, reachable_new.
  split; [exact Hreach|].
  apply (views_keyed_by_own_cid map_order _ "view1" view1 Hreach). reflexivity.
Defined.

Lemma length_never_stale_witness :
  reachable map_order
    (final_state (run_op map_order (OpStoreView (RView view1) (Some "alpha"))
       new_ViewController))
  ∧ (length (final_state (run_op map_order (OpStoreView (RView view1) (Some "alpha"))
               new_ViewController)) = None
     ∧ _views (final_state (run_op map_order (OpStoreView (RView view1) (Some "alpha"))
                 new_ViewController)) = ∅
     ∨ length (final_state (run_op map_order (OpStoreView (RView view1) (Some "alpha"))
                 new_ViewController))
       = Some (size (_views (final_state (run_op map_order
                               (OpStoreView (RView view1) (Some "alpha"))
                               new_ViewController))))).
Proof.
  assert (Hreach : reachable map_order
    (final_state (run_op map_order (OpStoreView (RView view1) (Some "alpha"))
       new_ViewController))) by apply reachable_step, reachable_new.
  split; [exact Hreach|].
  exact (length_never_stale map_order _ Hreach).
Defined.

Lemma empty_string_never_custom_key_witness :
  reachable map_order
    (final_state (run_op map_order (OpStoreView (RView view1) (Some ""))
       new_ViewController))
  ∧ _indexByCustom
      (final_state (run_op map_order (OpStoreView (RView view1) (Some ""))
         new_ViewController)) !! "" = None.
Proof.
  assert (Hreach : reachable map_order
    (final_state (run_op map_order (OpStoreView (RView view1) (Some ""))
       new_ViewController))) by apply reachable_step, reachable_new.
  split; [exact Hreach|].
  exact (empty_string_never_custom_key map_order _ Hreach).
Defined.

Lemma store_then_remove_restores_witness :
  ∃ s1 s2,
    storeView (RView view1) (Some "alpha") new_ViewController = Return tt s1 []
    ∧ removeFromContainer map_order (RView view1) s1 = Return tt s2 []
    ∧ _views s2 = _views new_ViewController
    ∧ _indexByModel s2 = _indexByModel new_ViewController
    ∧ _indexByCustom s2 = _indexByCustom new_ViewController
    ∧ length s2 = Some (size (_views new_ViewController)).
Proof.
  apply (store_then_remove_restores map_order map_order_perm view1 (Some "alpha")
           new_ViewController).
  - reflexivity.
  - intros m _. reflexivity.
  - intros key. simpl. rewrite lookup_empty. discriminate.
  - intros _. reflexivity.
Defined.

Lemma removeFromContainer_touches_own_entries_witness :
  ∃ s', removeFromContainer map_order (RView view1)
          (final_state (storeViews [(view1, Some "alpha"); (view2, Some "beta")]
             new_ViewController))
        = Return tt s' []
    ∧ _views s' !! "view2" = Some view2
    ∧ _indexByCustom s' !! "beta" = Some "view2".
Proof.
  destruct (removeFromContainer_touches_own_entries map_order map_order_perm view1
              (final_state (storeViews [(view1, Some "alpha"); (view2, Some "beta")]
                 new_ViewController)))
    as (s' & Hrun & _ & Hviews & _ & Hcustom).
  exists s'. split; [exact Hrun|]. split.
  - rewrite (Hviews "view2"); [reflexivity|discriminate].
  - apply (Hcustom "beta" "view2"); [discriminate|reflexivity].
Defined.

Lemma custom_key_survives_previous_holder_witness :
  "alpha" ≠ "" ∧ "alpha" ≠ "__proto__" ∧ cid view1 ≠ cid view2
  ∧ ∃ s1 s2 s3,
      storeView (RView view1) (Some "alpha") new_ViewController = Return tt s1 []
      ∧ storeView (RView view2) (Some "alpha") s1 = Return tt s2 []
      ∧ removeFromContainer map_order (RView view1) s2 = Return tt s3 []
      ∧ _indexByCustom s2 !! "alpha" = Some (cid view2)
      ∧ _indexByCustom s3 !! "alpha" = Some (cid view2)
      ∧ _getByCid (Some (cid view2)) s3 = Return (RView view2) s3 [].
Proof.
  split; [discriminate|]. split; [discriminate|]. split; [discriminate|].
  apply (custom_key_survives_previous_holder map_order map_order_perm view1 view2
           "alpha" new_ViewController); discriminate.
Defined.

Lemma attachViews_attaches_every_view_witness :
  ∃ t, attachViews map_order
         (final_state (storeViews [(view1, Some "alpha"); (list_view, None)]
            new_ViewController))
       = Return tt
           (final_state (storeViews [(view1, Some "alpha"); (list_view, None)]
              new_ViewController)) t
    ∧ EvRender "view1" ∈ t
    ∧ EvRender "view3" ∉ t.
Proof.
  destruct (attachViews_attaches_every_view map_order map_order_perm
              (final_state (storeViews [(view1, Some "alpha"); (list_view, None)]
                 new_ViewController)))
    as (t & Hrun & _ & Hin & Hout).
  - intros c v.
    change (_views (final_state (storeViews
              [(view1, Some "alpha"); (list_view, None)] new_ViewController)))
      with (<["view3" := list_view]> (<["view1" := view1]> (∅ : gmap string View))).
    intros [[_ <-]|[_ [[_ <-]|[_ Hv]]%lookup_insert_Some]]%lookup_insert_Some.
    + left. by eexists.
    + right. by eexists.
    + by rewrite lookup_empty in Hv.
  - exists t. split; [exact Hrun|]. split.
    + apply (Hin "view1" view1); reflexivity.
    + intros (c & v & Hv & Hcid & Hcol)%Hout.
      change (_views (final_state (storeViews
                [(view1, Some "alpha"); (list_view, None)] new_ViewController)))
        with (<["view3" := list_view]> (<["view1" := view1]> (∅ : gmap string View)))
        in Hv.
      apply lookup_insert_Some in Hv as [[_ <-]|[_ Hv]]; [discriminate|].
      apply lookup_insert_Some in Hv as [[_ <-]|[_ Hv]]; [discriminate|].
      by rewrite lookup_empty in Hv.
Defined.

Lemma attachViews_throws_on_unbound_view_witness :
  _views (final_state (storeViews [(view1, Some "alpha"); (bare_view, None)]
            new_ViewController)) !! "view4" = Some bare_view
  ∧ ∃ t, attachViews map_order
           (final_state (storeViews [(view1, Some "alpha"); (bare_view, None)]
              new_ViewController))
         = Raise (TypeError "Cannot read property 'attributes' of undefined")
             (final_state (storeViews [(view1, Some "alpha"); (bare_view, None)]
                new_ViewController)) t.
Proof.
  split; [reflexivity|].
  apply (attachViews_throws_on_unbound_view map_order map_order_perm _ "view4"
           bare_view); reflexivity.
Defined.

Lemma getByIndex_bounds_witness :
  _getByIndex map_order 2
    (final_state (storeViews [(view1, Some "alpha"); (view2, None)] new_ViewController))
  = Return RUndefined
      (final_state (storeViews [(view1, Some "alpha"); (view2, None)] new_ViewController))
      []
  ∧ ∃ c v,
      _views (final_state (storeViews [(view1, Some "alpha"); (view2, None)]
                new_ViewController)) !! c = Some v
      ∧ _getByIndex map_order 1
          (final_state (storeViews [(view1, Some "alpha"); (view2, None)]
             new_ViewController))
        = Return (RView v)
            (final_state (storeViews [(view1, Some "alpha"); (view2, None)]
               new_ViewController)) [].
Proof.
  split.
  - apply (proj1 (getByIndex_bounds map_order map_order_perm _)). by vm_compute.
  - apply (proj1 (proj2 (getByIndex_bounds map_order map_order_perm _))).
    by vm_compute.
Defined.

Lemma remove_twice_is_once_witness :
  ∃ s1, removeFromContainer map_order (RView view1)
          (final_state (storeViews [(view1, Some "alpha"); (view2, Some "beta")]
             new_ViewController))
        = Return tt s1 []
    ∧ removeFromContainer map_order (RView view1) s1 = Return tt s1 [].
Proof.
  apply (remove_twice_is_once map_order map_order_perm view1).
  intros k k'.
  change (_indexByCustom (final_state (storeViews
            [(view1, Some "alpha"); (view2, Some "beta")] new_ViewController)))
    with (<["beta" := "view2"]> (<["alpha" := "view1"]> (∅ : gmap string string))).
  intros [[_ [=]]|[_ [[<- _]|[_ Hk]]%lookup_insert_Some]]%lookup_insert_Some;
    [|by rewrite lookup_empty in Hk].
  intros [[_ [=]]|[_ [[<- _]|[_ Hk]]%lookup_insert_Some]]%lookup_insert_Some;
    [done|by rewrite lookup_empty in Hk].
Defined.

Lemma stored_view_receives_apply_witness :
  isFunction (members view1 !! "customMethod")
  ∧ ∃ s', storeView (RView view1) None new_ViewController = Return tt s' []
      ∧ EvApply (cid view1) "customMethod" (default [] (Some [JNum 1; JNum 2]))
        ∈ events (apply map_order "customMethod" (Some [JNum 1; JNum 2]) s').
Proof.
  assert (Hf : isFunction (members view1 !! "customMethod")) by by vm_compute.
  split; [exact Hf|].
  exact (stored_view_receives_apply map_order map_order_perm view1 None
           "customMethod" (Some [JNum 1; JNum 2]) new_ViewController Hf).
Defined.

Lemma removed_view_is_left_alone_witness :
  reachable map_order
    (final_state (run_op map_order (OpStoreView (RView view1) (Some "alpha"))
       new_ViewController))
  ∧ ∃ s', removeFromContainer map_order (RView view1)
            (final_state (run_op map_order (OpStoreView (RView view1) (Some "alpha"))
               new_ViewController))
          = Return tt s' []
      ∧ (EvApply (cid view1) "customMethod" [JNum 1]
           ∉ events (apply map_order "customMethod" (Some [JNum 1]) s'))
      ∧ (EvRender (cid view1) ∉ events (attachViews map_order s')).
Proof.
  assert (Hreach : reachable map_order
    (final_state (run_op map_order (OpStoreView (RView view1) (Some "alpha"))
       new_ViewController))) by apply reachable_step, reachable_new.
  split; [exact Hreach|].
  exact (removed_view_is_left_alone map_order map_order_perm view1 _
           "customMethod" (Some [JNum 1]) [JNum 1] Hreach).
Defined.

End ViewController.
